(** * Spectral relevance meta-analysis driver: [main_metaanalysis.py]

    A shallow embedding of the script's own logic: the two custom
    pipeline processors, the parameterised data loader, the naming of
    the output folder, the subject colour remapping and the main loop
    with its persistence branch.  Real-valued arrays are modelled over
    exact rationals ([Q]); the numerical library stages (affinity graph,
    eigendecomposition, k-means, t-SNE), the colour maps and the
    natural-sort routine are external collaborators and appear as
    members of an interface. *)

From Stdlib Require Import QArith Qabs Ascii String.
From stdpp Require Import base decidable option list sorting strings pretty gmap.

Open Scope string_scope.

(** ** Arrays *)

(** An n-dimensional real array is kept as the list of its entries along
    axis 0 (one entry per sample); an entry is a scalar or, recursively,
    a list of entries along the next axis. *)
#[local] Unset Elimination Schemes.
Inductive tensor : Type :=
  | Scalar (x : Q)
  | Axis (xs : list tensor).
#[local] Set Elimination Schemes.

(** A two-dimensional real array: one row per sample. *)
Abbreviation matrix := (list (list Q)).

Definition Qsum (l : list Q) : Q := foldr Qplus 0%Q l.

(** ** Exceptions and results *)

Inductive exn : Type :=
  | AssertionError (msg : string)
  | FileNotFoundError (path : string)
  | FileExistsError (path : string)
  | NotADirectoryError
  | IsADirectoryError (path : string)
  | KeyError (key : string)
  | IndexError
  | ValueError
  | TypeError
  | AttributeError (name : string)
  | LibraryError (msg : string).

Inductive result (A : Type) : Type :=
  | Ok (a : A)
  | Raise (e : exn).
Arguments Ok {A} a.
Arguments Raise {A} e.

#[export] Instance result_ret : MRet result := fun A a => Ok a.
#[export] Instance result_bind : MBind result := fun A B f m =>
  match m with
  | Ok a => f a
  | Raise e => Raise e
  end.

(** A [for] loop that appends what each iteration produces. *)
Fixpoint for_each {A B : Type} (f : A -> result B) (l : list A) : result (list B) :=
  match l with
  | [] => Ok []
  | a :: l' => b ← f a; bs ← for_each f l'; Ok (b :: bs)
  end.

(** ** Python built-ins used by the script *)

Definition dquote : string := String "034"%char EmptyString.
Definition squote : string := String "039"%char EmptyString.

(** [repr] of a [str] without quote, backslash or control characters
    (every member of the vocabularies below is one), and of a list of
    such strings. *)
Definition repr_str (s : string) : string := squote ++ s ++ squote.
Definition repr_list (l : list string) : string :=
  "[" ++ String.concat ", " (repr_str <$> l) ++ "]".

(** [str(i)] for an integer. *)
Definition str_int (i : Z) : string := pretty i.

(** [int(s)] on a string of decimal digits; any other text raises
    [ValueError].  (Signs, blanks and underscores, which Python also
    accepts, never reach the calls of the script: it converts validated
    fold names only.) *)
Definition digit_of (c : ascii) : option Z :=
  let n := Z.of_nat (nat_of_ascii c) in
  if decide (48 ≤ n ≤ 57)%Z then Some (n - 48)%Z else None.

Fixpoint int_digits (acc : Z) (s : string) : option Z :=
  match s with
  | EmptyString => Some acc
  | String c s' =>
      match digit_of c with
      | Some d => int_digits (10 * acc + d)%Z s'
      | None => None
      end
  end.

Definition int (s : string) : result Z :=
  match s with
  | EmptyString => Raise ValueError
  | _ => match int_digits 0 s with
         | Some z => Ok z
         | None => Raise ValueError
         end
  end.

(** [sub in s] for strings. *)
Fixpoint contains (sub s : string) : bool :=
  String.prefix sub s ||
  match s with
  | EmptyString => false
  | String _ s' => contains sub s'
  end.

(** ** Indexing *)

(** [l[i]] with Python's negative indices. *)
Definition getitem {A : Type} (l : list A) (i : Z) : result A :=
  let n := Z.of_nat (length l) in
  if decide (- n ≤ i < n)%Z then
    match l !! Z.to_nat (i `mod` n) with
    | Some a => Ok a
    | None => Raise IndexError
    end
  else Raise IndexError.

(** [a[mask]] for a boolean mask over axis 0; the mask must be as long
    as the axis. *)
Fixpoint compress {A : Type} (mask : list bool) (l : list A) : list A :=
  match mask, l with
  | b :: mask', a :: l' => if b then a :: compress mask' l' else compress mask' l'
  | _, _ => []
  end.

Definition getmask {A : Type} (l : list A) (mask : list bool) : result (list A) :=
  if decide (length mask = length l) then Ok (compress mask l)
  else Raise IndexError.

Module np.

(** [a[idx]] for an integer index array [idx] ([np.take] along axis 0). *)
Definition take {A : Type} (l : list A) (idx : list Z) : result (list A) :=
  for_each (getitem l) idx.

(** [a.ravel()]: the scalars of an entry in row-major order. *)
Fixpoint ravel (t : tensor) : list Q :=
  match t with
  | Scalar x => [x]
  | Axis xs => List.concat (List.map ravel xs)
  end.

(** Element-wise application of a scalar function (broadcast of a
    scalar operand over an array). *)
Fixpoint broadcast (f : Q -> Q) (t : tensor) : tensor :=
  match t with
  | Scalar x => Scalar (f x)
  | Axis xs => Axis (List.map (broadcast f) xs)
  end.

(** [a.sum()] of one entry, and of the whole array. *)
Definition sum1 (t : tensor) : Q := Qsum (ravel t).
Definition sum (data : list tensor) : Q := Qsum (List.map sum1 data).


(** [y == cls]. *)
Definition eq_mask (y : list Z) (cls : Z) : list bool :=
  (fun v => bool_decide (v = cls)) <$> y.

(** [np.unique]: the distinct values in ascending order. *)
Definition unique (y : list Z) : list Z :=
  merge_sort Z.le (remove_dups y).

(** [np.argmax] of one row: the first position of the maximum. *)
Fixpoint argmax_go (best : Q) (ibest i : Z) (row : list Q) : Z :=
  match row with
  | [] => ibest
  | x :: row' =>
      if Qle_bool x best then argmax_go best ibest (i + 1)%Z row'
      else argmax_go x i (i + 1)%Z row'
  end.

Definition argmax (row : list Q) : result Z :=
  match row with
  | [] => Raise ValueError
  | x :: row' => Ok (argmax_go x 0 1 row')
  end.

(** The scalars of a rank-1 entry. *)
Fixpoint scalars (xs : list tensor) : option (list Q) :=
  match xs with
  | [] => Some []
  | Scalar x :: xs' => cons x <$> scalars xs'
  | Axis _ :: _ => None
  end.

(** [np.argmax(a, axis=1)] for a two-dimensional [a].  An array of
    rank one has no axis 1 (numpy's [AxisError], a [ValueError]); for
    rank three and more numpy returns an array of index vectors, which
    the script's one-dimensional masks do not accommodate: the model
    reports [TypeError] there. *)
Definition argmax_axis1 (a : list tensor) : result (list Z) :=
  for_each (fun row =>
    match row with
    | Scalar _ => Raise ValueError
    | Axis xs =>
        match scalars xs with
        | Some r => argmax r
        | None => Raise TypeError
        end
    end) a.

(** [np.zeros(n, dtype=int)]. *)
Definition zeros (n : nat) : list Z := replicate n 0%Z.

(** [np.sort] of a one-dimensional integer array. *)
Definition sort (l : list Z) : list Z := merge_sort Z.le l.

(** [a.sum(axis=0)] and [np.mean(a, axis=0)] of a two-dimensional
    array: one entry per column.  (Of an array without rows numpy
    returns [nan] per column; the row list then has no columns left
    to tell and the model returns the empty vector.) *)
Fixpoint sum_axis0 (a : matrix) : list Q :=
  match a with
  | [] => []
  | [r] => r
  | r :: a' => zip_with Qplus r (sum_axis0 a')
  end.

Definition mean_axis0 (a : matrix) : list Q :=
  (fun c => c / inject_Z (Z.of_nat (length a)))%Q <$> sum_axis0 a.

(** [a - m] with the vector [m] broadcast over the rows of [a]. *)
Definition sub_rows (a : matrix) (m : list Q) : matrix :=
  (fun row => zip_with Qminus row m) <$> a.

End np.

(** ** Custom processors *)

(** [Flatten.function]: [data.reshape(data.shape[0], np.prod(data.shape[1:]))].
    Every sample is laid out as one row.  For a one-dimensional array
    the trailing shape is empty, its product is the float [1.0], and
    [reshape] refuses a float as a dimension. *)
Definition Flatten_function (data : list tensor) : result matrix :=
  for_each (fun t => match t with
                     | Scalar _ => Raise TypeError
                     | Axis _ => Ok (np.ravel t)
                     end) data.

(** [Normalize.function]: [data / data.sum(keepdims=True)].  The sum has
    no [axis] argument, so it runs over every axis and the quotient
    broadcasts one scalar over the array.  (Over [Q] a zero sum yields
    zeros where floating point yields [inf]/[nan]; the sum is the exact
    one, which is what the code computes up to rounding as long as the
    sum stays in the range of the number type it is added in: a sum of
    integers that leaves that range wraps around.  The statements
    about this function say where they need the range.) *)
Definition Normalize_function (data : list tensor) : list tensor :=
  let s := np.sum data in
  List.map (np.broadcast (fun x => x / s)%Q) data.

(** [Sequential([Normalize(), Flatten()])]. *)
Definition preprocessing (data : list tensor) : result matrix :=
  Flatten_function (Normalize_function data).

(** The normalisation as the specification words it: every row is
    divided by its own sum. *)
Definition Normalize_rowwise_spec (data : list tensor) : list tensor :=
  List.map (fun t => np.broadcast (fun x => x / np.sum1 t)%Q t) data.


(** ** Persisted state and effects *)

(** A variable of a [.mat] file as [scipy.io.loadmat] returns it: a real
    array, a two-dimensional integer array, or a two-dimensional cell
    array whose cells are two-dimensional integer arrays. *)
Inductive MatVar : Type :=
  | RealArray (a : list tensor)
  | IntMatrix (a : list (list Z))
  | CellMatrix (a : list (list (list (list Z)))).

(** The file system: directories, plain files, and the content of the
    [.mat] files among them (a dictionary from variable name to value). *)
Record world : Type := World {
  dirs : gset string;
  mats : gmap string (gmap string MatVar);
  files : gset string;
}.

(** What a saved [.npy] file holds. *)
Inductive payload : Type :=
  | PReal (a : list tensor)
  | PMatrix (a : matrix)
  | PInt (a : list Z)
  | PInts (a : list (list Z)).

Inductive event : Type :=
  | Loadmat (path : string)
  | Print (msg : string)
  | Cprint (msg : string)
  | Makedirs (path : string)
  | Savefig (path : string)
  | WriteText (path content : string)
  | NpSave (path : string) (a : payload)
  | PrintTiming (samples : nat)
  | Scatter (panel : nat) (colors : list (list Q) + list Z) (cmap : option string)
  | Show.

Record state : Type := State {
  fs : world;
  log : list event;
}.

(** Computations that read and change the state and may raise. *)
Definition M (A : Type) : Type := state -> state * result A.

#[export] Instance M_ret : MRet M := fun A a s => (s, Ok a).
#[export] Instance M_bind : MBind M := fun A B f m s =>
  match m s with
  | (s', Ok a) => f a s'
  | (s', Raise e) => (s', Raise e)
  end.

Definition lift {A : Type} (r : result A) : M A := fun s => (s, r).
Definition gets {A : Type} (f : world -> result A) : M A := fun s => (s, f (fs s)).
Definition emit (e : event) : M unit :=
  fun s => (State (fs s) (log s ++ [e]), Ok tt).
Definition print (msg : string) : M unit := emit (Print msg).

(** [assert cond, msg]. *)
Definition py_assert (cond : bool) (msg : string) : M unit :=
  lift (if cond then Ok tt else Raise (AssertionError msg)).

Module os_path.
Definition isdir (p : string) : M bool :=
  gets (fun w => Ok (bool_decide (p ∈ dirs w))).
Definition isfile (p : string) : M bool :=
  gets (fun w => Ok (bool_decide (p ∈ files w) || bool_decide (p ∈ dom (mats w)))).
End os_path.

(** [scipy.io.loadmat(path)]. *)
Definition loadmat (path : string) : M (gmap string MatVar) :=
  emit (Loadmat path);;
  gets (fun w => match mats w !! path with
                 | Some f => Ok f
                 | None => Raise (FileNotFoundError path)
                 end).

(** [f[key]] on a loaded file. *)
Definition getvar (f : gmap string MatVar) (key : string) : result MatVar :=
  match f !! key with
  | Some v => Ok v
  | None => Raise (KeyError key)
  end.

(** The three ways the script uses a variable.  An integer array is a
    real array as well; a real array is refused as an index array, and an
    array that is no cell array yields scalars that cannot be indexed
    ([IndexError] in both cases). *)
Definition as_real (v : MatVar) : result (list tensor) :=
  match v with
  | RealArray a => Ok a
  | IntMatrix a => Ok ((fun row => Axis ((fun z => Scalar (inject_Z z)) <$> row)) <$> a)
  | CellMatrix _ => Raise TypeError
  end.

Definition as_index (v : MatVar) : result (list (list Z)) :=
  match v with
  | IntMatrix a => Ok a
  | _ => Raise IndexError
  end.

Definition as_cells (v : MatVar) : result (list (list (list (list Z)))) :=
  match v with
  | CellMatrix a => Ok a
  | _ => Raise IndexError
  end.

(** ** Constants *)

Definition ANALYSIIS_DATA : list string := ["relevance"; "inputs"].
Definition ANALYSIS_GROUPING : list string := ["ground_truth"; "as_predicted"; "all"].
Definition ATTRIBUTION_TYPES : list string := ["dom"; "act"].
Definition MODELS : list string :=
  ["Cnn1DC8"; "Mlp3Layer768Unit"; "MlpLinear"; "SvmLinearL2C1em1"].
Definition FOLDS : list string :=
  ((fun f => str_int (Z.of_nat f)) <$> seq 0 10) ++ ["all"].

(** ** The data loader *)

Record EvaluationGroup : Type := Group {
  cls : Z;
  grp_y : list Z;
  grp_R : list tensor;
  grp_y_injury_type : list tensor;
  grp_y_health_type : list tensor;
  grp_y_subject : list tensor;
  grp_split_indices : list Z;
  grp_inputs : list tensor;
  grp_relevances : list tensor;
}.

(** The text of the selector assertions:
    ['Invalid {what} argument "{}". Pick from: {}'.format(value, allowed)]. *)
Definition pick_from (what value : string) (allowed : list string) : string :=
  "Invalid " ++ what ++ " argument " ++ dquote ++ value ++ dquote
  ++ ". Pick from: " ++ repr_list allowed.

(** Lines 63-68. *)
Definition validate (input_root model fold analysis_data attribution_type
                     analysis_groups : string) : M unit :=
  d ← os_path.isdir input_root;
  py_assert d ("Specified project root folder " ++ dquote ++ input_root
               ++ dquote ++ " does not exist!");;
  py_assert (bool_decide (model ∈ MODELS)) (pick_from "model" model MODELS);;
  py_assert (bool_decide (fold ∈ FOLDS)) (pick_from "model" fold FOLDS);;
  py_assert (bool_decide (analysis_data ∈ ANALYSIIS_DATA))
            (pick_from "model" analysis_data ANALYSIIS_DATA);;
  py_assert (bool_decide (attribution_type ∈ ATTRIBUTION_TYPES))
            (pick_from "model" attribution_type ATTRIBUTION_TYPES);;
  py_assert (bool_decide (analysis_groups ∈ ANALYSIS_GROUPING))
            (pick_from "analysis_groups" analysis_groups ANALYSIS_GROUPING).

(** Lines 79-82: the list of folds a selector stands for. *)
Definition resolve_fold (fold : string) : result (list Z) :=
  if decide (fold = "all")
  then for_each int (filter (fun f => f ≠ "all") FOLDS)
  else f ← int fold; Ok [f].

(** Line 84: [np.concatenate([splits['S'][0,f][0] for f in fold], axis=0)]. *)
Definition load_split_indices (splits : gmap string MatVar) (fold : list Z)
  : result (list Z) :=
  parts ← for_each (fun f =>
             S ← getvar splits "S" ≫= as_cells;
             row ← getitem S 0;
             cell ← getitem row f;
             getitem cell 0) fold;
  Ok (concat parts).

(** Path of the outputs of one model on one fold. *)
Definition outputs_path (input_root model : string) (f : Z) : string :=
  input_root ++ "/Injury/GRF_AV/" ++ model ++ "/part-" ++ str_int f ++ "/outputs.mat".

(** Lines 85-92: the per-fold predictions and attributions, concatenated
    along the sample axis.  (The rows keep whatever trailing shape they
    have; numpy refuses to concatenate arrays whose trailing shapes
    differ, which the row lists do not track.) *)
Fixpoint load_outputs (input_root model attribution_type : string) (fold : list Z)
  : M (list (list tensor) * list (list tensor)) :=
  match fold with
  | [] => mret ([], [])
  | f :: fold' =>
      model_outputs ← loadmat (outputs_path input_root model f);
      yp ← lift (getvar model_outputs "y_pred" ≫= as_real);
      r ← lift (getvar model_outputs ("R_pred_" ++ attribution_type ++ "_epsilon")
                ≫= as_real);
      rest ← load_outputs input_root model attribution_type fold';
      mret (yp :: rest.1, r :: rest.2)
  end.

(** Lines 105-110: the grouping label vector. *)
Definition grouping_labels (analysis_groups : string)
    (y_pred : list tensor) (targets_health : gmap string MatVar)
    (split_indices : list Z) : result (list Z) :=
  if decide (analysis_groups = "as_predicted") then np.argmax_axis1 y_pred
  else if decide (analysis_groups = "ground_truth") then
    Y ← getvar targets_health "Y" ≫= as_real;
    rows ← np.take Y split_indices;
    np.argmax_axis1 rows
  else Ok (np.zeros (length y_pred)).

(** Lines 115-124: one evaluation group. *)
Definition evaluation_group (y : list Z) (R true_injury_sublabels
    true_health_labels true_subject_labels : list tensor)
    (split_indices : list Z) (inputs relevances : list tensor) (c : Z)
  : result EvaluationGroup :=
  let mask := np.eq_mask y c in
  gy ← getmask y mask;
  gR ← getmask R mask;
  gi ← getmask true_injury_sublabels mask;
  gh ← getmask true_health_labels mask;
  gs ← getmask true_subject_labels mask;
  gx ← getmask split_indices mask;
  gin ← getmask inputs mask;
  grel ← getmask relevances mask;
  Ok (Group c gy gR gi gh gs gx gin grel).

(** The arrays in hand after line 98. *)
Record Arrays : Type := MkArrays {
  targets_health : gmap string MatVar;
  split_indices : list Z;
  y_pred : list tensor;
  R_pred : list tensor;
  true_injury_sublabels : list tensor;
  true_health_labels : list tensor;
  true_subject_labels : list tensor;
  inputs : list tensor;
}.

(** Lines 63-98: validation, loading, and selection of the samples of
    the requested folds. *)
Definition load_arrays (input_root model fold analysis_data attribution_type
    analysis_groups : string) : M Arrays :=
  validate input_root model fold analysis_data attribution_type analysis_groups;;
  targets_health ← loadmat (input_root ++ "/targets.mat");
  targets_injurytypes ← loadmat (input_root ++ "/targets_injurytypes.mat");
  targets_subject ← loadmat (input_root ++ "/subject_labels.mat");
  input_data ← loadmat (input_root ++ "/data.mat");
  permutation ← loadmat (input_root ++ "/permutation.mat");
  splits ← loadmat (input_root ++ "/splits.mat");
  fold ← lift (resolve_fold fold);
  split_indices ← lift (load_split_indices splits fold);
  outs ← load_outputs input_root model attribution_type fold;
  let y_pred := concat outs.1 in
  let R := concat outs.2 in
  true_injury_sublabels ← lift (Y ← getvar targets_injurytypes "Y" ≫= as_real;
                                np.take Y split_indices);
  true_health_labels ← lift (Y ← getvar targets_health "Y" ≫= as_real;
                             np.take Y split_indices);
  true_subject_labels ← lift (LS ← getvar targets_subject "LS" ≫= as_real;
                              P ← getvar permutation "P" ≫= as_index;
                              P0 ← getitem P 0;
                              permuted ← np.take LS P0;
                              np.take permuted split_indices);
  inputs ← lift (X ← getvar input_data "X" ≫= as_real; np.take X split_indices);
  mret (MkArrays targets_health split_indices y_pred R true_injury_sublabels
          true_health_labels true_subject_labels inputs).

(** Lines 98-125: choice of the data to analyse, labelling, and the
    split into one group per label. *)
Definition group_samples (analysis_data analysis_groups : string) (d : Arrays)
  : result (list EvaluationGroup) :=
  let relevances := R_pred d in
  let R := if decide (analysis_data = "inputs") then inputs d else R_pred d in
  y ← grouping_labels analysis_groups (y_pred d) (targets_health d) (split_indices d);
  for_each (evaluation_group y R (true_injury_sublabels d) (true_health_labels d)
              (true_subject_labels d) (split_indices d) (inputs d) relevances)
           (np.unique y).

Definition load_analysis_data (input_root model fold analysis_data
    attribution_type analysis_groups : string) : M (list EvaluationGroup) :=
  d ← load_arrays input_root model fold analysis_data attribution_type
        analysis_groups;
  lift (group_samples analysis_data analysis_groups d).

(** ** Run configuration *)

(** The namespace [argparse] returns: one field per command-line flag. *)
Module ARGS.
Record t : Type := Make {
  random_seed : string;
  analysis_groups : string;
  group_index : string;
  analysis_data : string;
  attribution_type : string;
  input_root : string;
  model : string;
  fold : string;
  min_clusters : Z;
  max_clusters : Z;
  neighbors_affinity : Z;
  number_eigen : Z;
  tsne_perplexity : Q;
  cmap_injury : string;
  cmap_subject : string;
  cmap_clustering : string;
  output : string;
  show : bool;
  save_results : bool;
}.
End ARGS.

(** The value of an attribute. *)
Inductive value : Type :=
  | VStr (s : string)
  | VInt (i : Z)
  | VFloat (x : Q)
  | VBool (b : bool).

(** [vars(ARGS)]: the attributes by name. *)
Definition vars (a : ARGS.t) : list (string * value) :=
  [ ("random_seed", VStr (ARGS.random_seed a));
    ("analysis_groups", VStr (ARGS.analysis_groups a));
    ("group_index", VStr (ARGS.group_index a));
    ("analysis_data", VStr (ARGS.analysis_data a));
    ("attribution_type", VStr (ARGS.attribution_type a));
    ("input_root", VStr (ARGS.input_root a));
    ("model", VStr (ARGS.model a));
    ("fold", VStr (ARGS.fold a));
    ("min_clusters", VInt (ARGS.min_clusters a));
    ("max_clusters", VInt (ARGS.max_clusters a));
    ("neighbors_affinity", VInt (ARGS.neighbors_affinity a));
    ("number_eigen", VInt (ARGS.number_eigen a));
    ("tsne_perplexity", VFloat (ARGS.tsne_perplexity a));
    ("cmap_injury", VStr (ARGS.cmap_injury a));
    ("cmap_subject", VStr (ARGS.cmap_subject a));
    ("cmap_clustering", VStr (ARGS.cmap_clustering a));
    ("output", VStr (ARGS.output a));
    ("show", VBool (ARGS.show a));
    ("save_results", VBool (ARGS.save_results a)) ].

Fixpoint assoc {V : Type} (k : string) (l : list (string * V)) : option V :=
  match l with
  | [] => None
  | (k', v) :: l' => if String.eqb k k' then Some v else assoc k l'
  end.

Definition getattr (a : ARGS.t) (k : string) : result value :=
  match assoc k (vars a) with
  | Some v => Ok v
  | None => Raise (AttributeError k)
  end.

(** ** External collaborators *)

(** What the script takes from its libraries: the text of a float, the
    natural sort of [natsort] (a rearrangement of its argument), the
    spectral pipeline of [corelay] after preprocessing (seed text,
    neighbour count, eigenvalue count, cluster counts, perplexity and
    data in; one label vector per cluster count and an embedding out),
    and the colour maps of [matplotlib] by name (RGBA per value). *)
Class External : Type := {
  format_float : Q -> string;
  natsorted : list string -> list string;
  natsorted_Permutation : forall l, natsorted l ≡ₚ l;
  SpectralClustering :
    string -> Z -> Z -> list Z -> Q -> matrix -> result (list (list Z) * matrix);
  get_cmap : string -> result (Q -> list Q);
}.

(** ['{}'.format(v)]. *)
Definition format `{External} (v : value) : string :=
  match v with
  | VStr s => s
  | VInt i => str_int i
  | VFloat x => format_float x
  | VBool b => if b then "True" else "False"
  end.

(** ** Folder name and argument record *)

Definition relevant_keys : list string :=
  ["random_seed"; "analysis_data"; "analysis_groups"; "group_index";
   "attribution_type"; "model"; "fold"; "min_clusters"; "max_clusters";
   "neighbors_affinity"; "tsne_perplexity"; "cmap_injury"; "cmap_subject";
   "cmap_clustering"].

Definition args_to_stuff `{External} (a : ARGS.t) : result (string * string) :=
  let relevant_keys := natsorted relevant_keys in
  names ← for_each (fun k => v ← getattr a k; Ok (format v)) relevant_keys;
  flags ← for_each (fun k => v ← getattr a k; Ok ("--" ++ k ++ " " ++ format v))
                   relevant_keys;
  Ok (String.concat "-" names, String.concat "  " flags).

(** ** Colour maps *)

(** [dict(pairs)]: a later pair replaces an earlier one on the same key. *)
Definition dict `{Countable K} {V : Type} (pairs : list (K * V)) : gmap K V :=
  list_to_map (reverse pairs).

(** [enumerate(l)]. *)
Definition enumerate {A : Type} (l : list A) : list (Z * A) :=
  imap (fun i x => (Z.of_nat i, x)) l.

Definition djordjes_custom_cmap (labels : list Z) : result (list (list Q)) :=
  let color_normal := [27; 158; 119]%Z in
  let color_ankle := [217; 95; 2]%Z in
  let color_knee := [230; 171; 2]%Z in
  let color_hip := [231; 41; 138]%Z in
  let color_gd := [117; 112; 179]%Z in
  let ccmap : gmap Z (list Q) :=
    dict ((fun iv : Z * list Z => (iv.1, (fun c => inject_Z c / 255)%Q <$> iv.2)) <$>
          enumerate [color_normal; color_ankle; color_knee; color_hip; color_gd]) in
  for_each (fun l => match ccmap !! l with
                     | Some c => Ok c
                     | None => Raise (KeyError (str_int l))
                     end) labels.

Definition cmap_limits : gmap string Z :=
  dict [("Pastel1", 9); ("Pastel2", 8); ("Paired", 12); ("Accent", 8);
        ("Dark2", 8); ("Set1", 9); ("Set2", 8); ("Set3", 12); ("tab10", 10);
        ("tab20", 20); ("tab20b", 20); ("tab20c", 20)]%Z.

(** Lines 165-168 of [custom_subject_cmap]: the consecutive enumeration
    of the labels. *)
Definition enum_labels (labels : list Z) : result (list Z) :=
  let unique_labels := np.unique labels in
  let enum_map : gmap Z Z :=
    dict ((fun il : Z * Z => (il.2, il.1)) <$> enumerate (np.sort unique_labels)) in
  for_each (fun l => match enum_map !! l with
                     | Some i => Ok i
                     | None => Raise (KeyError (str_int l))
                     end) labels.

Definition subject_warning (size : Z) (cmap : string) (limit : Z) : string :=
  "WARNING! You are trying to map " ++ str_int size
  ++ " unique labels using the qualitative color map " ++ cmap
  ++ ", which only has " ++ str_int limit
  ++ " unique values. Picking another color map is advised.".

Definition custom_subject_cmap `{External} (labels : list Z) (cmap : string)
  : M (list (list Q)) :=
  let size := Z.of_nat (length (np.unique labels)) in
  enum_labels ← lift (enum_labels labels);
  match cmap_limits !! cmap with
  | Some limit =>
      if decide (size > limit)%Z
      then emit (Cprint (subject_warning size cmap limit))
      else mret tt
  | None => mret tt
  end;;
  cm ← lift (get_cmap cmap);
  mret ((fun i => take 3 (cm (inject_Z i / inject_Z size)%Q)) <$> enum_labels).

(** ** The main loop *)

(** [range(ARGS.min_clusters, ARGS.max_clusters+1)]. *)
Definition n_clusters (a : ARGS.t) : list Z :=
  seqZ (ARGS.min_clusters a) (ARGS.max_clusters a + 1 - ARGS.min_clusters a).

(** Lines 230-253: the configured pipeline applied to the group's data. *)
Definition pipeline `{External} (a : ARGS.t) (R : list tensor)
  : result (list (list Z) * matrix) :=
  data ← preprocessing R;
  SpectralClustering (ARGS.random_seed a) (ARGS.neighbors_affinity a)
    (ARGS.number_eigen a) (n_clusters a) (ARGS.tsne_perplexity a) data.

(** Line 256: [tsne_embedding -= np.mean(tsne_embedding, axis=0)]. *)
Definition center (tsne_embedding : matrix) : matrix :=
  np.sub_rows tsne_embedding (np.mean_axis0 tsne_embedding).

(** Lines 296-304: one panel per clustering, from panel [i+1+1+1] on. *)
Fixpoint draw_clusterings `{External} (a : ARGS.t) (i : nat)
    (clusterings : list (list Z)) : M unit :=
  match clusterings with
  | [] => mret tt
  | c :: clusterings' =>
      lift (get_cmap (ARGS.cmap_clustering a));;
      emit (Scatter (i + 1 + 1 + 1) (inr c) (Some (ARGS.cmap_clustering a)));;
      draw_clusterings a (S i) clusterings'
  end.

(** Lines 262-310: the panels of the figure. *)
Definition draw_figure `{External} (a : ARGS.t) (e : EvaluationGroup)
    (clusterings : list (list Z)) : M unit :=
  (if decide (ARGS.cmap_injury a = "custom") then
     print "        drawing true injury labels by picking from djordje's custom colormap for cluster labels";;
     colors ← lift (np.argmax_axis1 (grp_y_injury_type e) ≫= djordjes_custom_cmap);
     emit (Scatter 1 (inl colors) None)
   else
     labels ← lift (np.argmax_axis1 (grp_y_injury_type e));
     lift (get_cmap (ARGS.cmap_injury a));;
     emit (Scatter 1 (inr labels) (Some (ARGS.cmap_injury a))));;
  subjects ← lift (np.argmax_axis1 (grp_y_subject e));
  colors ← custom_subject_cmap subjects (ARGS.cmap_subject a);
  emit (Scatter 2 (inl colors) None);;
  draw_clusterings a 0 clusterings.

(** Lines 223-310: pipeline, centring and figure of one group. *)
Definition analyse `{External} (a : ARGS.t) (e : EvaluationGroup)
  : M (list (list Z) * matrix) :=
  print ("    process " ++ dquote ++ ARGS.attribution_type a ++ dquote
         ++ " relevance for class " ++ str_int (cls e) ++ " ("
         ++ ARGS.analysis_groups a ++ ") as per " ++ ARGS.model a);;
  r ← lift (pipeline a (grp_R e));
  let clusterings := r.1 in
  let tsne_embedding := center r.2 in
  emit (PrintTiming (length tsne_embedding));;
  draw_figure a e clusterings;;
  mret (clusterings, tsne_embedding).

(** A path that exists as a plain file, with or without [.mat] content. *)
Definition plain_file (w : world) (p : string) : Prop :=
  p ∈ files w \/ p ∈ dom (mats w).

#[export] Instance plain_file_dec w p : Decision (plain_file w p).
Proof. unfold plain_file. apply _. Defined.

(** The directories a path lies below, outermost first: its prefixes up
    to each "/" (the empty prefix of an absolute path, the root, is left
    out).  Paths are taken as written: no ".", "..", doubled slash or
    link is resolved. *)
Fixpoint ancestors_go (pre p : string) : list string :=
  match p with
  | "" => []
  | String c p' =>
      (if decide (c = "/"%char /\ pre ≠ "") then [pre] else [])
      ++ ancestors_go (pre ++ String c "") p'
  end.

Definition ancestors (p : string) : list string := ancestors_go "" p.

(** [os.makedirs(p)]: refuses the empty path and a path that exists,
    fails below a plain file, and otherwise creates the directory
    together with the directories above it that are missing. *)
Definition os_makedirs (p : string) : M unit := fun s =>
  let w := fs s in
  if decide (p = "") then (s, Raise (FileNotFoundError p))
  else if decide (p ∈ dirs w ∨ p ∈ files w ∨ p ∈ dom (mats w))
  then (s, Raise (FileExistsError p))
  else if decide (Exists (plain_file w) (ancestors p))
  then (s, Raise NotADirectoryError)
  else (State (World ({[p]} ∪ list_to_set (ancestors p) ∪ dirs w) (mats w) (files w))
          (log s ++ [Makedirs p]),
        Ok tt).

(** Writing a file ([plt.savefig], [open(.., 'wt')], [np.save]): the
    path must not be a directory and the directory it lies in must
    exist (a path without one lies in the working directory or in the
    root).  Then the event is logged and the path becomes a plain file
    with the new content, which is no [.mat] content. *)
Definition write_file (p : string) (ev : event) : M unit := fun s =>
  let w := fs s in
  let written :=
    (State (World (dirs w) (delete p (mats w)) ({[p]} ∪ files w)) (log s ++ [ev]),
     Ok tt) in
  if decide (p = "") then (s, Raise (FileNotFoundError p))
  else if decide (p ∈ dirs w) then (s, Raise (IsADirectoryError p))
  else match last (ancestors p) with
       | None => written
       | Some parent =>
           if decide (parent ∈ dirs w) then written
           else if decide (Exists (plain_file w) (ancestors p))
           then (s, Raise NotADirectoryError)
           else (s, Raise (FileNotFoundError p))
       end.

Definition collision_message (a : ARGS.t) : string :=
  "Can not save results in " ++ dquote ++ ARGS.output a ++ dquote
  ++ ", exists as FILE already!".

(** Lines 313-333: the result persister. *)
Definition persist `{External} (a : ARGS.t) (e : EvaluationGroup)
    (clusterings : list (list Z)) (tsne_embedding : matrix) : M unit :=
  if ARGS.save_results a then
    isfile ← os_path.isfile (ARGS.output a);
    if (isfile : bool) then print (collision_message a)
    else
      stuff ← lift (args_to_stuff a);
      let args_string := stuff.2 in
      let output_dir := ARGS.output a ++ "/" ++ stuff.1 in
      isdir ← os_path.isdir output_dir;
      (if (isdir : bool) then mret tt else os_makedirs output_dir);;
      print ("    saving figure, args and clusterings/embedding in " ++ output_dir);;
      let c := str_int (cls e) in
      let svg := output_dir ++ "/cls-" ++ c ++ ".svg" in
      let pdf := output_dir ++ "/cls-" ++ c ++ ".pdf" in
      let callparams := output_dir ++ "/callparams.args" in
      let npy name := output_dir ++ "/" ++ name ++ "-" ++ c ++ ".npy" in
      write_file svg (Savefig svg);;
      write_file pdf (Savefig pdf);;
      write_file callparams (WriteText callparams args_string);;
      write_file (npy "emb") (NpSave (npy "emb") (PMatrix tsne_embedding));;
      write_file (npy "clust") (NpSave (npy "clust") (PInts clusterings));;
      write_file (npy "idx") (NpSave (npy "idx") (PInt (grp_split_indices e)));;
      write_file (npy "adata") (NpSave (npy "adata") (PReal (grp_R e)));;
      write_file (npy "inputs") (NpSave (npy "inputs") (PReal (grp_inputs e)));;
      write_file (npy "relevances") (NpSave (npy "relevances") (PReal (grp_relevances e)))
  else mret tt.

(** One iteration of the loop of line 217. *)
Definition process_group `{External} (a : ARGS.t) (e : EvaluationGroup) : M unit :=
  if bool_decide (ARGS.group_index a ∈ ["all"; str_int (cls e)]) then
    r ← analyse a e;
    persist a e r.1 r.2
  else
    print ("    skipping group/class " ++ str_int (cls e)
           ++ " analysis as per --group_index specification").

Fixpoint process_groups `{External} (a : ARGS.t) (groups : list EvaluationGroup)
  : M unit :=
  match groups with
  | [] => mret tt
  | e :: groups' => process_group a e;; process_groups a groups'
  end.

(** Lines 213-339 of [main], after the arguments are parsed and the
    random generator is seeded. *)
Definition main `{External} (a : ARGS.t) : M unit :=
  print "loading and preparing data as per specification...";;
  evaluation_groups ← load_analysis_data (ARGS.input_root a) (ARGS.model a)
      (ARGS.fold a) (ARGS.analysis_data a) (ARGS.attribution_type a)
      (ARGS.analysis_groups a);
  print "Starting Spectral Relevance Analysis...";;
  process_groups a evaluation_groups;;
  if ARGS.show a then emit Show else mret tt.

(** ** A sample instantiation

    Stand-ins for the external collaborators, used to run the model on
    concrete inputs: floats print as [n.0] or as a fraction, the sort is the plain
    lexical one (what the natural sort does on text without digits),
    the pipeline labels sample [i] with [i mod k] and embeds a row by
    its first two entries, and every colour map is a grey ramp. *)

Definition sample_format_float (x : Q) : string :=
  match Qden (Qred x) with
  | 1%positive => str_int (Qnum (Qred x)) ++ ".0"
  | d => str_int (Qnum (Qred x)) ++ "/" ++ pretty (Zpos d)
  end.

Definition sample_natsorted (l : list string) : list string :=
  merge_sort String.le l.

Definition sample_pipeline (seed : string) (neighbors eigen : Z) (ks : list Z)
    (perplexity : Q) (data : matrix) : result (list (list Z) * matrix) :=
  Ok ((fun k => imap (fun i _ => (Z.of_nat i `mod` k)%Z) data) <$> ks,
      (fun row => take 2 (row ++ [0; 0]%Q)) <$> data).

Definition sample_get_cmap (name : string) : result (Q -> list Q) :=
  Ok (fun x => [x; x; x; 1%Q]).

#[export] Instance sample_external : External := {|
  format_float := sample_format_float;
  natsorted := sample_natsorted;
  natsorted_Permutation := merge_sort_Permutation _;
  SpectralClustering := sample_pipeline;
  get_cmap := sample_get_cmap;
|}.

(** A 2 x 2 batch whose rows have the sums 2 and 4. *)
Definition sample_batch : list tensor :=
  [Axis [Scalar 1; Scalar 1]; Axis [Scalar 2; Scalar 2]].

Definition onehot (width : nat) (hot : list nat) : list tensor :=
  (fun h => Axis ((fun j => Scalar (if decide (j = h) then 1 else 0)%Q)
                  <$> seq 0 width)) <$> hot.

Definition vector (l : list Z) : tensor :=
  Axis ((fun z => Scalar (inject_Z z)) <$> l).

(** A project with four samples and two folds (three samples in fold 0,
    one in fold 1) and the outputs of one model on fold 0. *)
Definition sample_mats : gmap string (gmap string MatVar) :=
  list_to_map [
    ("proj/targets.mat", {[ "Y" := RealArray (onehot 2 [0; 1; 1; 0]%nat) ]});
    ("proj/targets_injurytypes.mat",
       {[ "Y" := RealArray (onehot 4 [0; 2; 3; 0]%nat) ]});
    ("proj/subject_labels.mat",
       {[ "LS" := RealArray (onehot 3 [0; 1; 2; 1]%nat) ]});
    ("proj/data.mat",
       {[ "X" := RealArray [vector [1; 2]; vector [3; 4]; vector [5; 6];
                            vector [7; 8]]%Z ]});
    ("proj/permutation.mat", {[ "P" := IntMatrix [[0; 1; 2; 3]]%Z ]});
    ("proj/splits.mat", {[ "S" := CellMatrix [[ [[0; 1; 2]]; [[3]] ]]%Z ]});
    ("proj/Injury/GRF_AV/Cnn1DC8/part-0/outputs.mat",
       list_to_map [
         ("y_pred", RealArray (onehot 2 [0; 1; 0]%nat));
         ("R_pred_act_epsilon",
            RealArray [vector [1; 1]; vector [2; 2]; vector [3; 3]]%Z);
         ("R_pred_dom_epsilon",
            RealArray [vector [1; 0]; vector [0; 2]; vector [3; 0]]%Z) ])
  ].

Definition sample_state : state := State (World {[ "proj" ]} sample_mats ∅) [].

(** The same project with a plain file where the output root should be. *)
Definition collision_state : state :=
  State (World {[ "proj" ]} sample_mats {[ "out" ]}) [].

(** A project whose fold 0 selects no sample. *)
Definition empty_mats : gmap string (gmap string MatVar) :=
  list_to_map [
    ("void/targets.mat", {[ "Y" := RealArray [] ]});
    ("void/targets_injurytypes.mat", {[ "Y" := RealArray [] ]});
    ("void/subject_labels.mat", {[ "LS" := RealArray [] ]});
    ("void/data.mat", {[ "X" := RealArray [] ]});
    ("void/permutation.mat", {[ "P" := IntMatrix [[]] ]});
    ("void/splits.mat", {[ "S" := CellMatrix [[ [[]] ]] ]});
    ("void/Injury/GRF_AV/MlpLinear/part-0/outputs.mat",
       list_to_map [
         ("y_pred", RealArray []);
         ("R_pred_act_epsilon", RealArray []);
         ("R_pred_dom_epsilon", RealArray []) ])
  ].

Definition empty_state : state := State (World {[ "void" ]} empty_mats ∅) [].

Definition sample_args : ARGS.t := {|
  ARGS.random_seed := "0xDEADBEEF";
  ARGS.analysis_groups := "ground_truth";
  ARGS.group_index := "all";
  ARGS.analysis_data := "relevance";
  ARGS.attribution_type := "act";
  ARGS.input_root := "proj";
  ARGS.model := "Cnn1DC8";
  ARGS.fold := "0";
  ARGS.min_clusters := 3;
  ARGS.max_clusters := 4;
  ARGS.neighbors_affinity := 3;
  ARGS.number_eigen := 8;
  ARGS.tsne_perplexity := 30;
  ARGS.cmap_injury := "custom";
  ARGS.cmap_subject := "viridis";
  ARGS.cmap_clustering := "Set2";
  ARGS.output := "out";
  ARGS.show := false;
  ARGS.save_results := true;
|}.

(** * Vocabulary of the statements *)

Definition valid_selectors (w : world) (input_root model fold analysis_data
    attribution_type analysis_groups : string) : Prop :=
  input_root ∈ dirs w /\ model ∈ MODELS /\ fold ∈ FOLDS
  /\ analysis_data ∈ ANALYSIIS_DATA /\ attribution_type ∈ ATTRIBUTION_TYPES
  /\ analysis_groups ∈ ANALYSIS_GROUPING.

(** The selectors with a closed vocabulary, as (value, vocabulary). *)
Definition vocabularies (model fold analysis_data attribution_type
    analysis_groups : string) : list (string * list string) :=
  [(model, MODELS); (fold, FOLDS); (analysis_data, ANALYSIIS_DATA);
   (attribution_type, ATTRIBUTION_TYPES); (analysis_groups, ANALYSIS_GROUPING)].

(** The six files every run loads, in the order of lines 71-76. *)
Definition project_files (input_root : string) : list string :=
  [input_root ++ "/targets.mat"; input_root ++ "/targets_injurytypes.mat";
   input_root ++ "/subject_labels.mat"; input_root ++ "/data.mat";
   input_root ++ "/permutation.mat"; input_root ++ "/splits.mat"].

(** What one fold contributes: the predictions and attributions stored
    in the outputs file of that fold. *)
Definition fold_outputs (w : world) (input_root model attribution_type : string)
    (f : Z) (yp r : list tensor) : Prop :=
  exists file,
    mats w !! outputs_path input_root model f = Some file
    /\ getvar file "y_pred" ≫= as_real = Ok yp
    /\ getvar file ("R_pred_" ++ attribution_type ++ "_epsilon") ≫= as_real = Ok r.

(** The group the loader builds for label [c]. *)
Definition group_of (analysis_data : string) (d : Arrays) (y : list Z) (c : Z)
  : EvaluationGroup :=
  let mask := np.eq_mask y c in
  Group c (compress mask y)
    (compress mask (if decide (analysis_data = "inputs") then inputs d else R_pred d))
    (compress mask (true_injury_sublabels d))
    (compress mask (true_health_labels d))
    (compress mask (true_subject_labels d))
    (compress mask (split_indices d))
    (compress mask (inputs d))
    (compress mask (R_pred d)).

(** The arrays that come from the outputs files are as long as those
    selected through the split table. *)
Definition aligned (d : Arrays) : Prop :=
  length (y_pred d) = length (split_indices d)
  /\ length (R_pred d) = length (split_indices d).

(** The state the loader leaves on the sample project, fold 0. *)
Definition sample_loaded : state :=
  State (fs sample_state)
        ((Loadmat <$> project_files "proj")
         ++ [Loadmat (outputs_path "proj" "Cnn1DC8" 0)]).

Definition sample_arrays (analysis_groups : string) : Arrays :=
  match (load_arrays "proj" "Cnn1DC8" "0" "relevance" "act" analysis_groups
           sample_state).2 with
  | Ok d => d
  | Raise _ => MkArrays ∅ [] [] [] [] [] [] []
  end.

Definition sample_groups (analysis_data analysis_groups : string)
  : list EvaluationGroup :=
  match (load_analysis_data "proj" "Cnn1DC8" "0" analysis_data "act"
           analysis_groups sample_state).2 with
  | Ok groups => groups
  | Raise _ => []
  end.

(** What lines 63-98 leave on the project without samples. *)
Definition empty_arrays : Arrays :=
  MkArrays {[ "Y" := RealArray [] ]} [] [] [] [] [] [] [].

Definition empty_loaded : state :=
  State (fs empty_state)
        ((Loadmat <$> project_files "void")
         ++ [Loadmat (outputs_path "void" "MlpLinear" 0)]).

(** The sum of column [j], read off the rows. *)
Definition column_sum (j : nat) (a : matrix) : Q :=
  Qsum ((fun row => default 0%Q (row !! j)) <$> a).

(** A numpy array is rectangular: every row has [d] entries. *)
Definition rectangular (d : nat) (a : matrix) : Prop :=
  Forall (fun row => length row = d) a.

(** The dictionary [enum_map] of [custom_subject_cmap]. *)
Definition enum_map (labels : list Z) : gmap Z Z :=
  dict ((fun il : Z * Z => (il.2, il.1)) <$> enumerate (np.sort (np.unique labels))).




(** The events that touch the file system. *)
Definition is_write (ev : event) : bool :=
  match ev with
  | Makedirs _ | Savefig _ | WriteText _ _ | NpSave _ _ => true
  | _ => false
  end.

(** The events of the analysis of a group and of a skipped group: the
    indented progress lines, the timing line, the warning and the panels. *)
Definition progress_event (ev : event) : Prop :=
  match ev with
  | Print msg => String.prefix " " msg = true
  | PrintTiming _ | Cprint _ | Scatter _ _ _ => True
  | _ => False
  end.

(** [m] leaves the file system alone and logs events in [P] only. *)
Definition emits {A : Type} (P : event -> Prop) (m : M A) : Prop :=
  forall s, exists evs,
    fs (m s).1 = fs s /\ log (m s).1 = (log s ++ evs)%list /\ Forall P evs.

(** The group is selected by [--group_index]. *)
Definition selected (a : ARGS.t) (e : EvaluationGroup) : Prop :=
  ARGS.group_index a ∈ ["all"; str_int (cls e)].

#[export] Instance selected_dec a e : Decision (selected a e).
Proof. unfold selected. apply _. Defined.

(** The report of a collision with the output root. *)
Definition is_collision_report (a : ARGS.t) (ev : event) : bool :=
  match ev with
  | Print msg => String.eqb msg (collision_message a)
  | _ => false
  end.

(** The two groups of the sample project under the policy "ground_truth". *)
Definition sample_group0 : EvaluationGroup :=
  Group 0 [0]%Z [vector [1; 1]%Z] (onehot 4 [0%nat]) (onehot 2 [0%nat])
    (onehot 3 [0%nat]) [0]%Z [vector [1; 2]%Z] [vector [1; 1]%Z].

Definition sample_group1 : EvaluationGroup :=
  Group 1 [1; 1]%Z [vector [2; 2]; vector [3; 3]]%Z (onehot 4 [2; 3]%nat)
    (onehot 2 [1; 1]%nat) (onehot 3 [1; 2]%nat) [1; 2]%Z
    [vector [3; 4]; vector [5; 6]]%Z [vector [2; 2]; vector [3; 3]]%Z.

(** What the analysis of a sample group returns. *)
Definition sample_analysis (e : EvaluationGroup) : list (list Z) * matrix :=
  match (analyse sample_args e sample_state).2 with
  | Ok r => r
  | Raise _ => ([], [])
  end.

(** A row of a two-dimensional array, as an entry along axis 0. *)
Definition row_tensor (r : list Q) : tensor := Axis (Scalar <$> r).

(** Two arrays that agree entry by entry as rationals. *)
Definition Qeq_rows (u v : list tensor) : Prop :=
  Forall2 (fun t t' => Forall2 Qeq (np.ravel t) (np.ravel t')) u v.

(** The events of [scipy.io.loadmat]. *)
Definition is_loadmat (ev : event) : Prop :=
  match ev with
  | Loadmat _ => True
  | _ => False
  end.

(** The panel a drawing event goes to. *)
Definition panel_of (ev : event) : option nat :=
  match ev with
  | Scatter panel _ _ => Some panel
  | _ => None
  end.

(** The path a writing event goes to. *)
Definition written_path (ev : event) : option string :=
  match ev with
  | Savefig path | WriteText path _ | NpSave path _ => Some path
  | _ => None
  end.

(** The files the persister writes for the group labelled [c] into the
    folder [dir], in the order of lines 325-333. *)
Definition persisted_paths (dir : string) (c : Z) : list string :=
  [dir ++ "/cls-" ++ str_int c ++ ".svg";
   dir ++ "/cls-" ++ str_int c ++ ".pdf";
   dir ++ "/callparams.args";
   dir ++ "/" ++ "emb" ++ "-" ++ str_int c ++ ".npy";
   dir ++ "/" ++ "clust" ++ "-" ++ str_int c ++ ".npy";
   dir ++ "/" ++ "idx" ++ "-" ++ str_int c ++ ".npy";
   dir ++ "/" ++ "adata" ++ "-" ++ str_int c ++ ".npy";
   dir ++ "/" ++ "inputs" ++ "-" ++ str_int c ++ ".npy";
   dir ++ "/" ++ "relevances" ++ "-" ++ str_int c ++ ".npy"].

(** [m], whenever it returns, has drawn the panels [ps], in that order. *)
Definition draws {A : Type} (ps : list nat) (m : M A) : Prop :=
  forall s s' x, m s = (s', Ok x) ->
    exists evs, log s' = (log s ++ evs)%list /\ omap panel_of evs = ps.

(** The sample project with a plain file where the folder of the sample
    configuration should be. *)
Definition blocked_state : state :=
  State (World {[ "proj" ]} sample_mats
           {[ "out/relevance-ground_truth-act-Set2-custom-viridis-0-all-4-3-Cnn1DC8-3-0xDEADBEEF-30.0" ]})
        [].

Definition with_group_index (g : string) (a : ARGS.t) : ARGS.t :=
  ARGS.Make (ARGS.random_seed a) (ARGS.analysis_groups a) g
    (ARGS.analysis_data a) (ARGS.attribution_type a) (ARGS.input_root a)
    (ARGS.model a) (ARGS.fold a) (ARGS.min_clusters a) (ARGS.max_clusters a)
    (ARGS.neighbors_affinity a) (ARGS.number_eigen a) (ARGS.tsne_perplexity a)
    (ARGS.cmap_injury a) (ARGS.cmap_subject a) (ARGS.cmap_clustering a)
    (ARGS.output a) (ARGS.show a) (ARGS.save_results a).

Definition without_saving (a : ARGS.t) : ARGS.t :=
  ARGS.Make (ARGS.random_seed a) (ARGS.analysis_groups a) (ARGS.group_index a)
    (ARGS.analysis_data a) (ARGS.attribution_type a) (ARGS.input_root a)
    (ARGS.model a) (ARGS.fold a) (ARGS.min_clusters a) (ARGS.max_clusters a)
    (ARGS.neighbors_affinity a) (ARGS.number_eigen a) (ARGS.tsne_perplexity a)
    (ARGS.cmap_injury a) (ARGS.cmap_subject a) (ARGS.cmap_clustering a)
    (ARGS.output a) (ARGS.show a) false.

(** A group whose data to analyse is one-dimensional: one number per
    sample. *)
Definition rank_one_group : EvaluationGroup :=
  Group 0 [0]%Z [Scalar 1] (onehot 4 [0%nat]) (onehot 2 [0%nat])
    (onehot 3 [0%nat]) [0]%Z [vector [1; 2]%Z] [Scalar 1].

(** A string without "/": the name of an entry of a directory. *)
Fixpoint slashless (s : string) : bool :=
  match s with
  | "" => true
  | String c s' => negb (Ascii.eqb c "/") && slashless s'
  end.

(** The numbers of a batch, sample after sample. *)
Definition entries (data : list tensor) : list Q :=
  concat (np.ravel <$> data).

(** The absolute values of the entries add up to less than 2^31: the
    sum of the batch, taken in any order, stays within the range of a
    32-bit integer, the narrowest number type numpy adds integers in
    (and within the range of the floats), so it is computed without
    wrap-around. *)
Definition sum_fits (data : list tensor) : Prop :=
  (Qsum (Qabs <$> entries data) < inject_Z (2 ^ 31))%Q.

(** What the loop logs for one group when the output root is taken by
    a plain file.  For a group that is not selected: the skipping line.
    For a selected group: the progress line, then (the pipeline having
    run on the group's data) the timing line with the number of
    embedded samples, the events of the figure, which draw the panels
    1, ..., 2 + k for the k clusterings of the pipeline, and last the
    report of the collision. *)
Definition collision_trace `{External} (a : ARGS.t) (e : EvaluationGroup)
    (evs : list event) : Prop :=
  if decide (selected a e) then
    exists clusterings raw figure,
      pipeline a (grp_R e) = Ok (clusterings, raw)
      /\ evs = ([Print ("    process " ++ dquote ++ ARGS.attribution_type a
                        ++ dquote ++ " relevance for class " ++ str_int (cls e)
                        ++ " (" ++ ARGS.analysis_groups a ++ ") as per "
                        ++ ARGS.model a);
                 PrintTiming (length (center raw))]
                ++ figure ++ [Print (collision_message a)])%list
      /\ Forall progress_event figure
      /\ omap panel_of figure = seq 1 (2 + length clusterings)
  else
    evs = [Print ("    skipping group/class " ++ str_int (cls e)
                  ++ " analysis as per --group_index specification")].

(** * Properties *)

(** ** Arrays and processors *)

Lemma tensor_ind (P : tensor -> Prop) :
  (forall x, P (Scalar x)) ->
  (forall xs, Forall P xs -> P (Axis xs)) ->
  forall t, P t.
Proof.
  intros HS HA. fix IH 1. intros [x|xs]; [apply HS|].
  apply HA. induction xs as [|t xs IHxs]; constructor; [apply IH|apply IHxs].
Qed.

Lemma ravel_broadcast f t : np.ravel (np.broadcast f t) = f <$> np.ravel t.
Proof.
  induction t as [x|xs IH] using tensor_ind; [done|].
  simpl. induction IH as [|t xs Ht _ IHxs]; [done|].
  simpl. rewrite fmap_app, Ht. f_equal. exact IHxs.
Qed.

(** What [Normalize] followed by [Flatten] computes on data with at
    least one axis besides the sample axis: one row per sample, holding
    every scalar of the sample over the sum of the whole batch. *)
Lemma preprocessing_spec data :
  Forall (fun t => exists xs, t = Axis xs) data ->
  preprocessing data
  = Ok ((fun t => (fun x => x / np.sum data)%Q <$> np.ravel t) <$> data).
Proof.
  intros Hdata. unfold preprocessing, Flatten_function, Normalize_function.
  generalize (np.sum data). intros total.
  induction Hdata as [|t data [xs ->] _ IH]; [done|].
  cbn [List.map for_each]. rewrite IH.
  change (np.broadcast (fun x => x / total)%Q (Axis xs))
    with (Axis (List.map (np.broadcast (fun x => x / total)%Q) xs)).
  cbn [mbind result_bind fmap list_fmap]. do 2 f_equal.
  apply (ravel_broadcast (fun x => x / total)%Q (Axis xs)).
Qed.

(** C1 (the code departs from the claim).  On the 2 x 2 batch with rows
    [1 1] and [2 2] the preprocessing stage yields one flat vector per
    sample, but each entry is divided by the sum 6 of the whole batch:
    the rows come out as [1/6 1/6] and [2/6 2/6], with sums 1/3 and 2/3,
    where division of each row by its own sum gives [1/2 1/2] and
    [2/4 2/4], with sums 1 and 1. *)
Theorem C1_Normalize_divides_by_batch_sum :
  np.sum sample_batch = 6%Q
  /\ preprocessing sample_batch = Ok [[1 # 6; 1 # 6]; [2 # 6; 2 # 6]]%Q
  /\ Flatten_function (Normalize_rowwise_spec sample_batch)
     = Ok [[1 # 2; 1 # 2]; [2 # 4; 2 # 4]]%Q
  /\ (Qred ∘ Qsum <$> [[1 # 6; 1 # 6]; [2 # 6; 2 # 6]]%Q) = [1 # 3; 2 # 3]%Q
  /\ (Qred ∘ Qsum <$> [[1 # 2; 1 # 2]; [2 # 4; 2 # 4]]%Q) = [1; 1]%Q.
Proof. repeat split; vm_compute; reflexivity. Qed.

(** Closed decidable facts, by evaluation of their decision. *)
Ltac by_decision :=
  lazymatch goal with
  | |- ?P -> False => apply (bool_decide_eq_false_1 P)
  | |- ¬ ?P => apply (bool_decide_eq_false_1 P)
  | |- ?P => apply (bool_decide_eq_true_1 P)
  end; vm_compute; reflexivity.

(** ** Strings *)

Lemma append_assoc (a b c : string) : (a ++ b) ++ c = a ++ b ++ c.
Proof. induction a as [|x a IH]; [done|]. exact (f_equal (String x) IH). Qed.

Lemma prefix_app (sub rest : string) : String.prefix sub (sub ++ rest) = true.
Proof.
  induction sub as [|c sub IH]; [by destruct rest|].
  change (String c sub ++ rest) with (String c (sub ++ rest)). simpl.
  destruct (ascii_dec c c); [exact IH|done].
Qed.

Lemma contains_unfold (sub s : string) :
  contains sub s
  = String.prefix sub s
    || match s with EmptyString => false | String _ s' => contains sub s' end.
Proof. by destruct s. Qed.

Lemma contains_app (sub before rest : string) :
  contains sub (before ++ sub ++ rest) = true.
Proof.
  induction before as [|c before IH].
  - change (EmptyString ++ sub ++ rest) with (sub ++ rest).
    by rewrite contains_unfold, prefix_app.
  - change (String c before ++ sub ++ rest)
      with (String c (before ++ sub ++ rest)).
    rewrite contains_unfold, IH. apply orb_true_r.
Qed.

Lemma contains_suffix (sub before : string) : contains sub (before ++ sub) = true.
Proof.
  replace sub with (sub ++ EmptyString) at 2; [apply contains_app|].
  induction sub as [|c sub IH]; [done|]. exact (f_equal (String c) IH).
Qed.

Lemma pick_from_value what value allowed :
  contains (dquote ++ value ++ dquote) (pick_from what value allowed) = true.
Proof.
  unfold pick_from.
  replace ("Invalid " ++ what ++ " argument " ++ dquote ++ value ++ dquote
           ++ ". Pick from: " ++ repr_list allowed)
    with (("Invalid " ++ what ++ " argument ") ++ (dquote ++ value ++ dquote)
          ++ ". Pick from: " ++ repr_list allowed).
  - apply contains_app.
  - by rewrite !append_assoc.
Qed.

Lemma pick_from_allowed what value allowed :
  contains ("Pick from: " ++ repr_list allowed) (pick_from what value allowed)
  = true.
Proof.
  unfold pick_from.
  replace ("Invalid " ++ what ++ " argument " ++ dquote ++ value ++ dquote
           ++ ". Pick from: " ++ repr_list allowed)
    with (("Invalid " ++ what ++ " argument " ++ dquote ++ value ++ dquote ++ ". ")
          ++ "Pick from: " ++ repr_list allowed).
  - apply contains_suffix.
  - by rewrite !append_assoc.
Qed.

Lemma root_message_value root :
  contains (dquote ++ root ++ dquote)
    ("Specified project root folder " ++ dquote ++ root ++ dquote
     ++ " does not exist!") = true.
Proof.
  replace ("Specified project root folder " ++ dquote ++ root ++ dquote
           ++ " does not exist!")
    with ("Specified project root folder " ++ (dquote ++ root ++ dquote)
          ++ " does not exist!").
  - apply contains_app.
  - by rewrite !append_assoc.
Qed.

(** ** The effect monad *)

Lemma result_bind_Ok {A B} (m : result A) (f : A -> result B) b :
  m ≫= f = Ok b -> exists a, m = Ok a /\ f a = Ok b.
Proof. destruct m as [a|e]; [eauto|discriminate]. Qed.

Lemma M_bind_Ok {A B} (m : M A) (f : A -> M B) s s' b :
  (m ≫= f) s = (s', Ok b) ->
  exists a s1, m s = (s1, Ok a) /\ f a s1 = (s', Ok b).
Proof.
  unfold mbind, M_bind. destruct (m s) as [s1 [a|e]]; [eauto|discriminate].
Qed.

Lemma M_bind_step {A B} (m : M A) (f : A -> M B) s s1 a :
  m s = (s1, Ok a) -> (m ≫= f) s = f a s1.
Proof. unfold mbind, M_bind. by intros ->. Qed.

Lemma M_bind_raise {A B} (m : M A) (f : A -> M B) s s1 e :
  m s = (s1, Raise e) -> (m ≫= f) s = (s1, Raise e).
Proof. unfold mbind, M_bind. by intros ->. Qed.

Lemma lift_Ok {A} (r : result A) s s' a :
  lift r s = (s', Ok a) -> s' = s /\ r = Ok a.
Proof. unfold lift. by intros [= -> ->]. Qed.

Lemma loadmat_Ok path s s' f :
  loadmat path s = (s', Ok f) ->
  s' = State (fs s) (log s ++ [Loadmat path]) /\ mats (fs s) !! path = Some f.
Proof.
  unfold loadmat, emit, gets, mbind, M_bind. simpl.
  destruct (mats (fs s) !! path); [by intros [= <- <-]|discriminate].
Qed.

(** ** Validation of the selectors *)

Lemma py_assert_true {B} msg (k : M B) s : (py_assert true msg;; k) s = k s.
Proof. reflexivity. Qed.

Lemma py_assert_false {B} msg (k : M B) s :
  (py_assert false msg;; k) s = (s, Raise (AssertionError msg)).
Proof. reflexivity. Qed.

(** The assertions as a cascade of decisions. *)
Lemma validate_unfold root model fold ad att ag s :
  validate root model fold ad att ag s
  = (s,
     if decide (root ∈ dirs (fs s)) then
       if decide (model ∈ MODELS) then
         if decide (fold ∈ FOLDS) then
           if decide (ad ∈ ANALYSIIS_DATA) then
             if decide (att ∈ ATTRIBUTION_TYPES) then
               if decide (ag ∈ ANALYSIS_GROUPING) then Ok tt
               else Raise (AssertionError
                             (pick_from "analysis_groups" ag ANALYSIS_GROUPING))
             else Raise (AssertionError (pick_from "model" att ATTRIBUTION_TYPES))
           else Raise (AssertionError (pick_from "model" ad ANALYSIIS_DATA))
         else Raise (AssertionError (pick_from "model" fold FOLDS))
       else Raise (AssertionError (pick_from "model" model MODELS))
     else Raise (AssertionError
                   ("Specified project root folder " ++ dquote ++ root
                    ++ dquote ++ " does not exist!"))).
Proof.
  unfold validate.
  rewrite (M_bind_step _ _ s s (bool_decide (root ∈ dirs (fs s)))) by reflexivity.
  destruct (decide (root ∈ dirs (fs s)));
    [rewrite (bool_decide_eq_true_2 (root ∈ dirs (fs s))), py_assert_true by assumption
    |by rewrite (bool_decide_eq_false_2 (root ∈ dirs (fs s))), py_assert_false by assumption].
  destruct (decide (model ∈ MODELS));
    [rewrite (bool_decide_eq_true_2 (model ∈ MODELS)), py_assert_true by assumption
    |by rewrite (bool_decide_eq_false_2 (model ∈ MODELS)), py_assert_false by assumption].
  destruct (decide (fold ∈ FOLDS));
    [rewrite (bool_decide_eq_true_2 (fold ∈ FOLDS)), py_assert_true by assumption
    |by rewrite (bool_decide_eq_false_2 (fold ∈ FOLDS)), py_assert_false by assumption].
  destruct (decide (ad ∈ ANALYSIIS_DATA));
    [rewrite (bool_decide_eq_true_2 (ad ∈ ANALYSIIS_DATA)), py_assert_true by assumption
    |by rewrite (bool_decide_eq_false_2 (ad ∈ ANALYSIIS_DATA)), py_assert_false by assumption].
  destruct (decide (att ∈ ATTRIBUTION_TYPES));
    [rewrite (bool_decide_eq_true_2 (att ∈ ATTRIBUTION_TYPES)), py_assert_true by assumption
    |by rewrite (bool_decide_eq_false_2 (att ∈ ATTRIBUTION_TYPES)), py_assert_false by assumption].
  destruct (decide (ag ∈ ANALYSIS_GROUPING));
    [by rewrite (bool_decide_eq_true_2 (ag ∈ ANALYSIS_GROUPING)) by assumption
    |by rewrite (bool_decide_eq_false_2 (ag ∈ ANALYSIS_GROUPING)) by assumption].
Qed.

Lemma validate_Ok root model fold ad att ag s :
  valid_selectors (fs s) root model fold ad att ag ->
  validate root model fold ad att ag s = (s, Ok tt).
Proof.
  intros (?&?&?&?&?&?). rewrite validate_unfold.
  by rewrite !decide_True by assumption.
Qed.

Lemma validate_Ok_inv root model fold ad att ag s s' u :
  validate root model fold ad att ag s = (s', Ok u) ->
  s' = s /\ valid_selectors (fs s) root model fold ad att ag.
Proof.
  rewrite validate_unfold. unfold valid_selectors.
  repeat (case_decide; [|intros [=]]). by intros [= <-].
Qed.

Lemma validate_raise root model fold ad att ag s :
  ~ valid_selectors (fs s) root model fold ad att ag ->
  exists msg,
    validate root model fold ad att ag s = (s, Raise (AssertionError msg))
    /\ (((root ∉ dirs (fs s)) /\ contains (dquote ++ root ++ dquote) msg = true)
        \/ exists value allowed,
             ((value, allowed) ∈ vocabularies model fold ad att ag)
             /\ (value ∉ allowed)
             /\ contains (dquote ++ value ++ dquote) msg = true
             /\ contains ("Pick from: " ++ repr_list allowed) msg = true).
Proof.
  intros Hinv. rewrite validate_unfold. unfold vocabularies.
  case_decide as Hroot; cycle 1.
  { eexists; split; [reflexivity|]. left. split; [assumption|].
    apply root_message_value. }
  repeat (case_decide; cycle 1;
    [ eexists; split; [reflexivity|]; right; do 2 eexists;
      split; [|split; [eassumption|split;
                 [apply pick_from_value|apply pick_from_allowed]]];
      repeat first [apply list_elem_of_here | apply list_elem_of_further] | ]).
  destruct Hinv. by repeat split.
Qed.

Lemma load_analysis_data_raise root model fold ad att ag s e :
  validate root model fold ad att ag s = (s, Raise e) ->
  load_analysis_data root model fold ad att ag s = (s, Raise e).
Proof.
  intros H. unfold load_analysis_data, load_arrays.
  apply M_bind_raise. by apply M_bind_raise.
Qed.

(** C3 (amended).  Whenever the project root is no directory or a
    selector lies outside its vocabulary, [load_analysis_data] raises an
    [AssertionError] and leaves the state as it was: nothing has been
    loaded.  The message quotes the value that failed the first
    unsatisfied check and, for the five selectors with a closed
    vocabulary, ends with the list of all allowed values. *)
Theorem C3_invalid_selector_raises_before_loading
    root model fold ad att ag s :
  ~ valid_selectors (fs s) root model fold ad att ag ->
  exists msg,
    load_analysis_data root model fold ad att ag s
    = (s, Raise (AssertionError msg))
    /\ (((root ∉ dirs (fs s)) /\ contains (dquote ++ root ++ dquote) msg = true)
        \/ exists value allowed,
             ((value, allowed) ∈ vocabularies model fold ad att ag)
             /\ (value ∉ allowed)
             /\ contains (dquote ++ value ++ dquote) msg = true
             /\ contains ("Pick from: " ++ repr_list allowed) msg = true).
Proof.
  intros Hinv. destruct (validate_raise _ _ _ _ _ _ _ Hinv) as (msg & Hv & Hmsg).
  exists msg. split; [by apply load_analysis_data_raise|exact Hmsg].
Qed.

Lemma C3_invalid_selector_witness :
  exists msg,
    load_analysis_data "proj" "Foo" "0" "relevance" "act" "all" sample_state
    = (sample_state, Raise (AssertionError msg))
    /\ ((("proj" ∉ dirs (fs sample_state))
         /\ contains (dquote ++ "proj" ++ dquote) msg = true)
        \/ exists value allowed,
             ((value, allowed) ∈ vocabularies "Foo" "0" "relevance" "act" "all")
             /\ (value ∉ allowed)
             /\ contains (dquote ++ value ++ dquote) msg = true
             /\ contains ("Pick from: " ++ repr_list allowed) msg = true).
Proof.
  apply C3_invalid_selector_raises_before_loading.
  intros (_ & H & _). revert H. by_decision.
Defined.

(** C3 (the claim as stated fails).  For a project root that is no
    directory the message is
    [Specified project root folder "nowhere" does not exist!]: it lists
    no allowed values at all. *)
Lemma C3_root_message_lists_no_values :
  exists msg,
    load_analysis_data "nowhere" "Cnn1DC8" "0" "relevance" "act" "all" sample_state
    = (sample_state, Raise (AssertionError msg))
    /\ msg = "Specified project root folder " ++ dquote ++ "nowhere" ++ dquote
             ++ " does not exist!"
    /\ contains "Pick from" msg = false
    /\ Forall (fun allowed => contains (repr_list allowed) msg = false)
         [MODELS; FOLDS; ANALYSIIS_DATA; ATTRIBUTION_TYPES; ANALYSIS_GROUPING].
Proof.
  eexists. split.
  - apply load_analysis_data_raise. rewrite validate_unfold.
    rewrite decide_False; [reflexivity|by_decision].
  - split; [reflexivity|]. split; [vm_compute; reflexivity|].
    repeat constructor.
Qed.

(** The three middle assertions carry the text of the first one: an
    invalid fold is reported as an invalid "model" argument, and the
    message nowhere says "fold". *)
Lemma invalid_fold_is_reported_as_model :
  load_analysis_data "proj" "Cnn1DC8" "12" "relevance" "act" "all" sample_state
  = (sample_state, Raise (AssertionError (pick_from "model" "12" FOLDS)))
  /\ contains "fold" (pick_from "model" "12" FOLDS) = false.
Proof.
  split; [|vm_compute; reflexivity].
  apply load_analysis_data_raise. rewrite validate_unfold.
  rewrite decide_True by by_decision.
  rewrite decide_True by by_decision.
  rewrite decide_False; [reflexivity|by_decision].
Qed.

(** ** Loading *)

Lemma for_each_length {A B} (f : A -> result B) l bs :
  for_each f l = Ok bs -> length bs = length l.
Proof.
  revert bs. induction l as [|a l IH]; intros bs; simpl.
  - by intros [= <-].
  - intros (b & _ & (bs' & Hbs & [= <-])%result_bind_Ok)%result_bind_Ok.
    simpl. f_equal. by apply IH.
Qed.


Lemma take_length {A} (l : list A) idx rows :
  np.take l idx = Ok rows -> length rows = length idx.
Proof. apply for_each_length. Qed.

Lemma resolve_fold_all :
  resolve_fold "all" = Ok [0; 1; 2; 3; 4; 5; 6; 7; 8; 9]%Z.
Proof. reflexivity. Qed.

Lemma resolve_fold_single fold :
  fold ∈ FOLDS -> fold ≠ "all" ->
  exists f, resolve_fold fold = Ok [f] /\ int fold = Ok f /\ str_int f = fold
            /\ (0 <= f <= 9)%Z.
Proof.
  intros Hin Hne. unfold resolve_fold. rewrite decide_False by done.
  unfold FOLDS in Hin. cbn in Hin.
  exists (match int fold with Ok f => f | Raise _ => 0%Z end).
  repeat (apply elem_of_cons in Hin as [->|Hin];
          [try (repeat split; vm_compute; first [reflexivity|discriminate])|]).
  - done.
  - by apply elem_of_nil in Hin.
Qed.

Lemma load_outputs_Ok_inv root model att folds s s' outs :
  load_outputs root model att folds s = (s', Ok outs) ->
  s' = State (fs s) (log s ++ (Loadmat ∘ outputs_path root model <$> folds))
  /\ Forall3 (fold_outputs (fs s) root model att) folds outs.1 outs.2.
Proof.
  revert s outs. induction folds as [|f folds IH]; intros s outs; simpl.
  - intros [= <- <-]. rewrite app_nil_r. destruct s. split; [done|constructor].
  - intros (file & s1 & (-> & Hfile)%loadmat_Ok & H)%M_bind_Ok.
    apply M_bind_Ok in H as (yp & s2 & (-> & Hyp)%lift_Ok & H).
    apply M_bind_Ok in H as (r & s3 & (-> & Hr)%lift_Ok & H).
    apply M_bind_Ok in H as (rest & s4 & Hrest & [= <- <-]).
    apply IH in Hrest as [-> Hall]. simpl in *. split.
    + by rewrite <- app_assoc.
    + constructor; [by exists file|done].
Qed.

Lemma load_arrays_Ok_inv root model fold ad att ag s s' d :
  load_arrays root model fold ad att ag s = (s', Ok d) ->
  valid_selectors (fs s) root model fold ad att ag
  /\ exists folds yps rs,
       resolve_fold fold = Ok folds
       /\ s' = State (fs s) (log s ++ (Loadmat <$> project_files root)
                             ++ (Loadmat ∘ outputs_path root model <$> folds))
       /\ Forall3 (fold_outputs (fs s) root model att) folds yps rs
       /\ y_pred d = concat yps /\ R_pred d = concat rs
       /\ length (true_injury_sublabels d) = length (split_indices d)
       /\ length (true_health_labels d) = length (split_indices d)
       /\ length (true_subject_labels d) = length (split_indices d)
       /\ length (inputs d) = length (split_indices d).
Proof.
  unfold load_arrays. intros H.
  apply M_bind_Ok in H as (u & s0 & [-> Hvalid]%validate_Ok_inv & H).
  split; [exact Hvalid|].
  apply M_bind_Ok in H as (th & s1 & (-> & _)%loadmat_Ok & H).
  apply M_bind_Ok in H as (ti & s2 & (-> & _)%loadmat_Ok & H).
  apply M_bind_Ok in H as (ts & s3 & (-> & _)%loadmat_Ok & H).
  apply M_bind_Ok in H as (idata & s4 & (-> & _)%loadmat_Ok & H).
  apply M_bind_Ok in H as (perm & s5 & (-> & _)%loadmat_Ok & H).
  apply M_bind_Ok in H as (splits & s6 & (-> & _)%loadmat_Ok & H).
  apply M_bind_Ok in H as (folds & s7 & (-> & Hfolds)%lift_Ok & H).
  apply M_bind_Ok in H as (idx & s8 & (-> & Hidx)%lift_Ok & H).
  apply M_bind_Ok in H as (outs & s9 & (-> & Houts)%load_outputs_Ok_inv & H).
  apply M_bind_Ok in H as (inj & s10 & (-> & Hinj)%lift_Ok & H).
  apply M_bind_Ok in H as (hea & s11 & (-> & Hhea)%lift_Ok & H).
  apply M_bind_Ok in H as (sub & s12 & (-> & Hsub)%lift_Ok & H).
  apply M_bind_Ok in H as (inp & s13 & (-> & Hinp)%lift_Ok & H).
  injection H as <- <-. simpl in *.
  exists folds, outs.1, outs.2. split; [done|]. split.
  { f_equal. rewrite <- !app_assoc. done. }
  split; [done|]. split; [done|]. split; [done|].
  apply result_bind_Ok in Hinj as (? & _ & ?%take_length).
  apply result_bind_Ok in Hhea as (? & _ & ?%take_length).
  apply result_bind_Ok in Hsub as (? & _ & Hsub).
  apply result_bind_Ok in Hsub as (? & _ & Hsub).
  apply result_bind_Ok in Hsub as (? & _ & Hsub).
  apply result_bind_Ok in Hsub as (? & _ & ?%take_length).
  apply result_bind_Ok in Hinp as (? & _ & ?%take_length).
  done.
Qed.

Lemma load_analysis_data_Ok_inv root model fold ad att ag s s' groups :
  load_analysis_data root model fold ad att ag s = (s', Ok groups) ->
  exists d, load_arrays root model fold ad att ag s = (s', Ok d)
            /\ group_samples ad ag d = Ok groups.
Proof.
  unfold load_analysis_data.
  intros (d & s1 & Hd & (-> & Hg)%lift_Ok)%M_bind_Ok. eauto.
Qed.

Lemma load_analysis_data_Ok root model fold ad att ag s s' d groups :
  load_arrays root model fold ad att ag s = (s', Ok d) ->
  group_samples ad ag d = Ok groups ->
  load_analysis_data root model fold ad att ag s = (s', Ok groups).
Proof.
  intros Hd Hg. unfold load_analysis_data.
  rewrite (M_bind_step _ _ _ _ _ Hd). unfold lift. by rewrite Hg.
Qed.

(** ** Grouping *)

Lemma for_each_Ok_fmap {A B} (f : A -> result B) (g : A -> B) l :
  (forall a, a ∈ l -> f a = Ok (g a)) -> for_each f l = Ok (g <$> l).
Proof.
  induction l as [|a l IH]; intros Hf; simpl; [done|].
  rewrite (Hf a) by apply list_elem_of_here. simpl.
  rewrite IH; [done|]. intros b Hb. apply Hf. by apply list_elem_of_further.
Qed.

Lemma for_each_Forall2 {A B} (f : A -> result B) l bs :
  for_each f l = Ok bs -> Forall2 (fun a b => f a = Ok b) l bs.
Proof.
  revert bs. induction l as [|a l IH]; intros bs; simpl.
  - intros [= <-]. constructor.
  - intros (b & Hb & (bs' & Hbs & [= <-])%result_bind_Ok)%result_bind_Ok.
    constructor; [done|by apply IH].
Qed.

Lemma getmask_Ok {A} (l : list A) mask :
  length mask = length l -> getmask l mask = Ok (compress mask l).
Proof. intros H. unfold getmask. by rewrite decide_True. Qed.

Lemma getmask_Ok_inv {A} (l : list A) mask r :
  getmask l mask = Ok r -> length mask = length l /\ r = compress mask l.
Proof. unfold getmask. case_decide; [by intros [= <-]|discriminate]. Qed.

Lemma eq_mask_length y c : length (np.eq_mask y c) = length y.
Proof. apply length_fmap. Qed.

Lemma compress_eq_mask_length {A} (l : list A) y c :
  length l = length y ->
  length (compress (np.eq_mask y c) l) = length (filter (fun v => v = c) y).
Proof.
  revert l. induction y as [|v y IH]; intros [|a l] [=]; simpl; [done|].
  rewrite filter_cons. destruct (decide (v = c)).
  - rewrite bool_decide_eq_true_2 by done. simpl. by rewrite IH.
  - rewrite bool_decide_eq_false_2 by done. by rewrite IH.
Qed.

Lemma compress_replicate_true {A} (l : list A) :
  compress (replicate (length l) true) l = l.
Proof. induction l as [|a l IH]; simpl; [done|by rewrite IH]. Qed.

Lemma unique_NoDup y : NoDup (np.unique y).
Proof.
  unfold np.unique. rewrite merge_sort_Permutation. apply NoDup_remove_dups.
Qed.

Lemma unique_elem_of y c : c ∈ np.unique y <-> c ∈ y.
Proof.
  unfold np.unique. rewrite merge_sort_Permutation. apply elem_of_remove_dups.
Qed.

Lemma unique_Sorted y : StronglySorted Z.le (np.unique y).
Proof. apply StronglySorted_merge_sort; apply _. Qed.

Lemma unique_zeros n : n ≠ 0%nat -> np.unique (np.zeros n) = [0%Z].
Proof.
  intros Hn. unfold np.unique, np.zeros.
  assert (remove_dups (replicate n 0%Z) = [0%Z]) as ->; [|done].
  destruct n as [|n]; [done|]. clear Hn.
  induction n as [|n IH]; [done|].
  change (replicate (S (S n)) 0%Z) with (0%Z :: replicate (S n) 0%Z).
  cbn [remove_dups].
  destruct (decide_rel elem_of 0%Z (replicate (S n) 0%Z)) as [_|Hn];
    [exact IH|].
  destruct Hn. apply list_elem_of_here.
Qed.

(** The sizes of the classes of a labelling add up to its length. *)
Lemma sum_class_sizes (U : list Z) :
  NoDup U -> forall y : list Z, (forall v, v ∈ y -> v ∈ U) ->
  sum_list ((fun c => length (filter (fun v => v = c) y)) <$> U) = length y.
Proof.
  induction 1 as [|u U Hu HU IH]; intros y Hy.
  - destruct y as [|v y]; [done|].
    specialize (Hy v (list_elem_of_here _ _)). by apply elem_of_nil in Hy.
  - assert (sum_list ((fun c => length (filter (fun v => v = c) y)) <$> U)
            = length (filter (fun v => ¬ v = u) y)) as Hrest.
    { rewrite <- (IH (filter (fun v => ¬ v = u) y)).
      - f_equal. apply list_fmap_ext. intros _ c Hc%list_elem_of_lookup_2.
        rewrite list_filter_filter_l; [done|]. intros v -> ->. done.
      - intros v [Hne Hv]%list_elem_of_filter.
        apply Hy, elem_of_cons in Hv as [?|?]; done. }
    rewrite fmap_cons. simpl. rewrite Hrest, <- length_app.
    by rewrite filter_app_complement.
Qed.

Lemma evaluation_group_Ok_inv ad d y c g :
  evaluation_group y (if decide (ad = "inputs") then inputs d else R_pred d)
    (true_injury_sublabels d) (true_health_labels d) (true_subject_labels d)
    (split_indices d) (inputs d) (R_pred d) c = Ok g ->
  g = group_of ad d y c.
Proof.
  unfold evaluation_group, group_of. intros H.
  repeat (apply result_bind_Ok in H as (? & [_ ->]%getmask_Ok_inv & H)).
  by injection H as <-.
Qed.

Lemma grouping_labels_length ag d y :
  length (y_pred d) = length (split_indices d) ->
  grouping_labels ag (y_pred d) (targets_health d) (split_indices d) = Ok y ->
  length y = length (split_indices d).
Proof.
  intros Hal. unfold grouping_labels. repeat case_decide.
  - intros ->%for_each_length. done.
  - intros (Y & _ & (rows & H1%take_length & H2%for_each_length)%result_bind_Ok)%result_bind_Ok.
    congruence.
  - intros [= <-]. unfold np.zeros. by rewrite length_replicate.
Qed.

Lemma group_samples_Ok ad ag d y :
  aligned d ->
  length (true_injury_sublabels d) = length (split_indices d) ->
  length (true_health_labels d) = length (split_indices d) ->
  length (true_subject_labels d) = length (split_indices d) ->
  length (inputs d) = length (split_indices d) ->
  grouping_labels ag (y_pred d) (targets_health d) (split_indices d) = Ok y ->
  group_samples ad ag d = Ok (group_of ad d y <$> np.unique y).
Proof.
  intros [Hyp HR] Hinj Hhea Hsub Hinp Hy.
  pose proof (grouping_labels_length _ _ _ Hyp Hy) as Hlen.
  unfold group_samples. rewrite Hy. simpl.
  apply for_each_Ok_fmap. intros c _.
  unfold evaluation_group, group_of.
  rewrite !getmask_Ok; [done|rewrite eq_mask_length; try congruence..].
  case_decide; congruence.
Qed.

(** C2.  Take any run in which the selectors are valid and the files
    load (lines 63-98 succeed), the arrays of the outputs files are as
    long as the selection of the split table, and the labels [y] can be
    computed.  Then [load_analysis_data] returns, and it returns one
    group per distinct value of [y], in ascending order of the value;
    position [i] of the selection falls under the mask of the group
    whose label is [y[i]] and of no other; every array of a group has
    one row per sample of the group; and the sample counts of the groups
    add up to the number of selected samples. *)
Theorem C2_one_group_per_label root model fold ad att ag s s' d y :
  load_arrays root model fold ad att ag s = (s', Ok d) ->
  aligned d ->
  grouping_labels ag (y_pred d) (targets_health d) (split_indices d) = Ok y ->
  exists groups,
    load_analysis_data root model fold ad att ag s = (s', Ok groups)
    /\ groups = (group_of ad d y <$> np.unique y)
    /\ cls <$> groups = np.unique y
    /\ NoDup (cls <$> groups)
    /\ StronglySorted Z.le (cls <$> groups)
    /\ (forall c, c ∈ cls <$> groups <-> c ∈ y)
    /\ (forall i v, y !! i = Some v -> forall g, g ∈ groups ->
          (np.eq_mask y (cls g) !! i = Some true <-> cls g = v))
    /\ Forall (fun g => length (grp_R g) = length (grp_y g)
                        /\ length (grp_split_indices g) = length (grp_y g)
                        /\ length (grp_inputs g) = length (grp_y g)
                        /\ length (grp_relevances g) = length (grp_y g)) groups
    /\ sum_list ((fun g => length (grp_y g)) <$> groups)
       = length (split_indices d).
Proof.
  intros Hd Hal Hy.
  destruct (load_arrays_Ok_inv _ _ _ _ _ _ _ _ _ Hd)
    as (_ & _ & _ & _ & _ & _ & _ & _ & _ & Hinj & Hhea & Hsub & Hinp).
  pose proof (grouping_labels_length _ _ _ (proj1 Hal) Hy) as Hlen.
  assert (cls <$> (group_of ad d y <$> np.unique y) = np.unique y) as Hcls.
  { rewrite <- list_fmap_compose. apply list_fmap_id. }
  exists (group_of ad d y <$> np.unique y).
  split. { eapply load_analysis_data_Ok; [done|]. by apply group_samples_Ok. }
  split; [done|]. split; [done|]. rewrite Hcls.
  split; [apply unique_NoDup|]. split; [apply unique_Sorted|].
  split; [apply unique_elem_of|]. split; [|split].
  - intros i v Hi g (c & -> & _)%list_elem_of_fmap. simpl.
    unfold np.eq_mask. rewrite list_lookup_fmap, Hi. simpl. split.
    + intros [= H]. by apply bool_decide_eq_true_1 in H.
    + intros ->. by rewrite bool_decide_eq_true_2.
  - apply Forall_fmap, Forall_forall. intros c _. simpl.
    destruct Hal as [_ HR].
    rewrite !compress_eq_mask_length; [done|try congruence..].
    case_decide; congruence.
  - rewrite <- list_fmap_compose, <- Hlen.
    rewrite <- (sum_class_sizes (np.unique y) (unique_NoDup y) y)
      by (intros v; apply unique_elem_of).
    f_equal. apply list_fmap_ext. intros _ c _. simpl.
    by apply compress_eq_mask_length.
Qed.

(** C4 (amended).  With the grouping policy "all", whenever lines 63-98
    succeed, the arrays are aligned and at least one sample is selected,
    [load_analysis_data] returns exactly one group; its label is 0 and
    its arrays are the whole selection. *)
Theorem C4_all_yields_one_group_labelled_0 root model fold ad att s s' d :
  load_arrays root model fold ad att "all" s = (s', Ok d) ->
  aligned d ->
  y_pred d ≠ [] ->
  load_analysis_data root model fold ad att "all" s
  = (s', Ok [Group 0 (np.zeros (length (split_indices d)))
               (if decide (ad = "inputs") then inputs d else R_pred d)
               (true_injury_sublabels d) (true_health_labels d)
               (true_subject_labels d) (split_indices d) (inputs d)
               (R_pred d)]).
Proof.
  intros Hd Hal Hne.
  destruct (load_arrays_Ok_inv _ _ _ _ _ _ _ _ _ Hd)
    as (_ & _ & _ & _ & _ & _ & _ & _ & _ & Hinj & Hhea & Hsub & Hinp).
  assert (grouping_labels "all" (y_pred d) (targets_health d) (split_indices d)
          = Ok (np.zeros (length (y_pred d)))) as Hy by reflexivity.
  eapply load_analysis_data_Ok; [done|].
  rewrite (group_samples_Ok _ _ _ _ Hal Hinj Hhea Hsub Hinp Hy).
  rewrite unique_zeros by (by destruct (y_pred d)).
  destruct Hal as [Hyp HR]. rewrite Hyp. simpl. unfold group_of. do 2 f_equal.
  assert (np.eq_mask (np.zeros (length (split_indices d))) 0
          = replicate (length (split_indices d)) true) as ->.
  { unfold np.eq_mask, np.zeros. by rewrite fmap_replicate. }
  f_equal.
  - rewrite <- (length_replicate (length (split_indices d)) 0%Z) at 1.
    apply compress_replicate_true.
  - case_decide.
    + rewrite <- Hinp. apply compress_replicate_true.
    + rewrite <- HR. apply compress_replicate_true.
  - rewrite <- Hinj. apply compress_replicate_true.
  - rewrite <- Hhea. apply compress_replicate_true.
  - rewrite <- Hsub. apply compress_replicate_true.
  - apply compress_replicate_true.
  - rewrite <- Hinp. apply compress_replicate_true.
  - rewrite <- HR. apply compress_replicate_true.
Qed.

(** C6.  With the data kind "inputs", the analysed data of every group
    the loader returns is the group's raw input array itself. *)
Theorem C6_inputs_analysed_data_is_raw_input root model fold att ag s s' groups :
  load_analysis_data root model fold "inputs" att ag s = (s', Ok groups) ->
  Forall (fun g => grp_R g = grp_inputs g) groups.
Proof.
  intros (d & _ & Hg)%load_analysis_data_Ok_inv.
  unfold group_samples in Hg.
  apply result_bind_Ok in Hg as (y & _ & Hg).
  apply for_each_Forall2 in Hg.
  induction Hg as [|c g cs gs Hc _ IH]; constructor; [|exact IH].
  apply evaluation_group_Ok_inv in Hc as ->. reflexivity.
Qed.

(** Every group the loader returns holds at least one sample. *)
Lemma groups_have_samples root model fold ad att ag s s' groups :
  load_analysis_data root model fold ad att ag s = (s', Ok groups) ->
  Forall (fun g => grp_y g ≠ []) groups.
Proof.
  intros (d & _ & Hg)%load_analysis_data_Ok_inv.
  unfold group_samples in Hg.
  apply result_bind_Ok in Hg as (y & _ & Hg).
  apply for_each_Forall2 in Hg.
  assert (Forall (fun c => c ∈ y) (np.unique y)) as Hin.
  { apply Forall_forall. intros c. apply unique_elem_of. }
  induction Hg as [|c g cs gs Hc _ IH]; [constructor|].
  apply Forall_cons in Hin as [Hc' Hin]. constructor; [|by apply IH].
  apply evaluation_group_Ok_inv in Hc as ->. simpl. intros Hnil.
  apply (f_equal length) in Hnil.
  rewrite compress_eq_mask_length in Hnil by done.
  apply length_zero_iff_nil in Hnil.
  assert (c ∈ filter (fun v => v = c) y) as Hmem by (by apply list_elem_of_filter).
  rewrite Hnil in Hmem. by apply elem_of_nil in Hmem.
Qed.

(** C5.  In every run of [load_analysis_data] that returns, the fold
    selector "all" has been resolved to the folds 0 to 9 in ascending
    order and any other selector to the one fold it names; the outputs
    files are loaded, after the six project files, in the order of the
    resolved folds, and the predictions and attributions are the
    concatenation, in that order, of what the files hold. *)
Theorem C5_folds_resolved_and_concatenated_in_order
    root model fold ad att ag s s' groups :
  load_analysis_data root model fold ad att ag s = (s', Ok groups) ->
  exists folds d yps rs,
    resolve_fold fold = Ok folds
    /\ (fold = "all" -> folds = [0; 1; 2; 3; 4; 5; 6; 7; 8; 9]%Z)
    /\ (fold ≠ "all" -> exists f, folds = [f] /\ int fold = Ok f /\ str_int f = fold)
    /\ log s' = (log s ++ (Loadmat <$> project_files root)
                       ++ (Loadmat ∘ outputs_path root model <$> folds))%list
    /\ load_arrays root model fold ad att ag s = (s', Ok d)
    /\ Forall3 (fold_outputs (fs s) root model att) folds yps rs
    /\ y_pred d = concat yps
    /\ R_pred d = concat rs.
Proof.
  intros (d & Hd & _)%load_analysis_data_Ok_inv.
  destruct (load_arrays_Ok_inv _ _ _ _ _ _ _ _ _ Hd)
    as (Hvalid & folds & yps & rs & Hfolds & -> & Hall & Hyp & HR & _).
  exists folds, d, yps, rs. split; [done|]. split; [|split].
  - intros ->. rewrite resolve_fold_all in Hfolds. by injection Hfolds as <-.
  - intros Hne. destruct Hvalid as (_ & _ & Hin & _).
    destruct (resolve_fold_single fold Hin Hne) as (f & Hf & Hint & Hstr & _).
    exists f. rewrite Hf in Hfolds. by injection Hfolds as <-.
  - done.
Qed.

(** ** The loader on the sample project *)

Lemma C2_one_group_per_label_witness :
  exists groups,
    load_analysis_data "proj" "Cnn1DC8" "0" "relevance" "act" "ground_truth"
      sample_state = (sample_loaded, Ok groups)
    /\ cls <$> groups = [0; 1]%Z
    /\ sum_list ((fun g => length (grp_y g)) <$> groups) = 3%nat.
Proof.
  destruct (C2_one_group_per_label "proj" "Cnn1DC8" "0" "relevance" "act"
              "ground_truth" sample_state sample_loaded
              (sample_arrays "ground_truth") [0; 1; 1]%Z)
    as (groups & Hload & _ & Hcls & _ & _ & _ & _ & _ & Hsum).
  - vm_compute. reflexivity.
  - split; vm_compute; reflexivity.
  - vm_compute. reflexivity.
  - exists groups. split; [exact Hload|]. split; [exact Hcls|exact Hsum].
Defined.

Lemma C4_all_yields_one_group_witness :
  load_analysis_data "proj" "Cnn1DC8" "0" "relevance" "act" "all" sample_state
  = (sample_loaded,
     Ok [Group 0 (np.zeros (length (split_indices (sample_arrays "all"))))
           (if decide ("relevance" = "inputs") then inputs (sample_arrays "all")
            else R_pred (sample_arrays "all"))
           (true_injury_sublabels (sample_arrays "all"))
           (true_health_labels (sample_arrays "all"))
           (true_subject_labels (sample_arrays "all"))
           (split_indices (sample_arrays "all")) (inputs (sample_arrays "all"))
           (R_pred (sample_arrays "all"))]).
Proof.
  apply C4_all_yields_one_group_labelled_0.
  - vm_compute. reflexivity.
  - split; vm_compute; reflexivity.
  - vm_compute. discriminate.
Defined.

(** C4 (the claim as stated fails).  On a project whose fold selects no
    sample every check passes, every file loads, the arrays are aligned
    (all empty), and the policy "all" yields no group at all. *)
Lemma C4_no_sample_no_group :
  valid_selectors (fs empty_state) "void" "MlpLinear" "0" "relevance" "act" "all"
  /\ load_arrays "void" "MlpLinear" "0" "relevance" "act" "all" empty_state
     = (empty_loaded, Ok empty_arrays)
  /\ aligned empty_arrays
  /\ load_analysis_data "void" "MlpLinear" "0" "relevance" "act" "all" empty_state
     = (empty_loaded, Ok []).
Proof.
  split; [repeat split; by_decision|].
  split; [vm_compute; reflexivity|].
  split; [split; reflexivity|].
  vm_compute. reflexivity.
Qed.

Lemma C5_folds_resolved_witness :
  exists folds d yps rs,
    resolve_fold "0" = Ok folds
    /\ ("0" = "all" -> folds = [0; 1; 2; 3; 4; 5; 6; 7; 8; 9]%Z)
    /\ ("0" ≠ "all" -> exists f, folds = [f] /\ int "0" = Ok f /\ str_int f = "0")
    /\ log sample_loaded
       = (log sample_state ++ (Loadmat <$> project_files "proj")
            ++ (Loadmat ∘ outputs_path "proj" "Cnn1DC8" <$> folds))%list
    /\ load_arrays "proj" "Cnn1DC8" "0" "relevance" "act" "as_predicted"
         sample_state = (sample_loaded, Ok d)
    /\ Forall3 (fold_outputs (fs sample_state) "proj" "Cnn1DC8" "act") folds yps rs
    /\ y_pred d = concat yps
    /\ R_pred d = concat rs.
Proof.
  apply (C5_folds_resolved_and_concatenated_in_order "proj" "Cnn1DC8" "0"
           "relevance" "act" "as_predicted" sample_state sample_loaded
           (sample_groups "relevance" "as_predicted")).
  vm_compute. reflexivity.
Defined.

Lemma C6_inputs_analysed_data_witness :
  Forall (fun g => grp_R g = grp_inputs g) (sample_groups "inputs" "as_predicted")
  /\ length (sample_groups "inputs" "as_predicted") = 2%nat.
Proof.
  split; [|reflexivity].
  apply (C6_inputs_analysed_data_is_raw_input "proj" "Cnn1DC8" "0" "act"
           "as_predicted" sample_state sample_loaded).
  vm_compute. reflexivity.
Defined.

(** ** Centring of the embedding *)

Section centring.
Variable d : nat.
Implicit Types (a : matrix) (m row : list Q) (j : nat).
Local Abbreviation rectangular := (rectangular d).

Lemma sum_axis0_length a : a ≠ [] -> rectangular a -> length (np.sum_axis0 a) = d.
Proof.
  intros Hne Hrect. induction Hrect as [|r a Hr Hrect IH]; [done|].
  destruct a as [|r' a]; [done|].
  change (np.sum_axis0 (r :: r' :: a))
    with (zip_with Qplus r (np.sum_axis0 (r' :: a))).
  rewrite length_zip_with, IH by done. lia.
Qed.

Lemma sum_axis0_lookup a j :
  a ≠ [] -> rectangular a -> (j < d)%nat ->
  exists v, np.sum_axis0 a !! j = Some v /\ (v == column_sum j a)%Q.
Proof.
  intros Hne Hrect Hj. induction Hrect as [|r a Hr Hrect IH]; [done|].
  destruct (lookup_lt_is_Some_2 r j) as [x Hx]; [lia|].
  destruct a as [|r' a].
  - exists x. split; [done|]. unfold column_sum. simpl. rewrite Hx. simpl. ring.
  - destruct IH as (v & Hv & Heq); [done|].
    exists (x + v)%Q. split.
    + change (np.sum_axis0 (r :: r' :: a))
        with (zip_with Qplus r (np.sum_axis0 (r' :: a))).
      by rewrite lookup_zip_with, Hx, Hv.
    + unfold column_sum in *. rewrite fmap_cons. cbn [Qsum foldr].
      rewrite Hx. simpl. by rewrite Heq.
Qed.

Lemma sub_rows_rectangular a m :
  length m = d -> rectangular a -> rectangular (np.sub_rows a m).
Proof.
  intros Hm Hrect. unfold np.sub_rows. apply Forall_fmap.
  eapply Forall_impl; [exact Hrect|]. intros row Hrow. simpl in *.
  rewrite length_zip_with. lia.
Qed.

Lemma column_sum_sub_rows a m j mj :
  rectangular a -> (j < d)%nat -> m !! j = Some mj ->
  (column_sum j (np.sub_rows a m)
   == column_sum j a - inject_Z (Z.of_nat (length a)) * mj)%Q.
Proof.
  intros Hrect Hj Hm. induction Hrect as [|r a Hr Hrect IH].
  - unfold column_sum. simpl. ring.
  - destruct (lookup_lt_is_Some_2 r j) as [x Hx]; [lia|].
    unfold column_sum in *. unfold np.sub_rows in *.
    rewrite !fmap_cons. cbn [Qsum foldr].
    rewrite lookup_zip_with, Hx, Hm. simpl. rewrite IH.
    rewrite Nat2Z.inj_succ, <- Z.add_1_r, inject_Z_plus. simpl.
    unfold Qsum. change (inject_Z 1) with 1%Q. ring.
Qed.

(** C7.  For an embedding with at least one sample, after the mean
    over the samples has been subtracted from every row, the mean
    over the samples of every coordinate is zero. *)
Theorem C7_centered_embedding_has_zero_mean (tsne_embedding : matrix) :
  tsne_embedding ≠ [] ->
  rectangular tsne_embedding ->
  length (np.mean_axis0 (center tsne_embedding)) = d
  /\ Forall (fun c => c == 0)%Q (np.mean_axis0 (center tsne_embedding)).
Proof.
  intros Hne Hrect. set (a := tsne_embedding) in *.
  assert (length (np.mean_axis0 a) = d) as Hmlen.
  { unfold np.mean_axis0. by rewrite length_fmap, sum_axis0_length. }
  assert (center a ≠ []) as Hne'.
  { unfold center, np.sub_rows. by destruct a. }
  pose proof (sub_rows_rectangular a _ Hmlen Hrect) as Hrect'.
  fold (center a) in Hrect'.
  split.
  { unfold np.mean_axis0 at 1. by rewrite length_fmap, sum_axis0_length. }
  apply Forall_lookup. intros j c Hc.
  assert (j < d)%nat as Hj.
  { apply lookup_lt_Some in Hc.
    unfold np.mean_axis0 in Hc at 1.
    by rewrite length_fmap, sum_axis0_length in Hc. }
  unfold np.mean_axis0 in Hc at 1. rewrite list_lookup_fmap in Hc.
  destruct (sum_axis0_lookup (center a) j Hne' Hrect' Hj) as (v' & Hv' & Heq').
  rewrite Hv' in Hc. injection Hc as <-.
  destruct (sum_axis0_lookup a j Hne Hrect Hj) as (v & Hv & Heq).
  assert (np.mean_axis0 a !! j
          = Some (v / inject_Z (Z.of_nat (length a)))%Q) as Hm.
  { unfold np.mean_axis0. by rewrite list_lookup_fmap, Hv. }
  unfold center in Heq'.
  rewrite (column_sum_sub_rows a _ j _ Hrect Hj Hm) in Heq'.
  unfold center, np.sub_rows. rewrite length_fmap, Heq', <- Heq.
  assert (~ inject_Z (Z.of_nat (length a)) == 0)%Q as Hn.
  { destruct a; [done|]. unfold Qeq. simpl. lia. }
  field. exact Hn.
Qed.
End centring.

Lemma C7_centered_embedding_witness :
  length (np.mean_axis0 (center [[1; 2]; [3; 6]]%Q)) = 2%nat
  /\ Forall (fun c => c == 0)%Q (np.mean_axis0 (center [[1; 2]; [3; 6]]%Q)).
Proof.
  apply C7_centered_embedding_has_zero_mean; [discriminate|].
  repeat constructor.
Defined.

(** ** Subject colours *)

Lemma enumerate_keys (V : list Z) :
  ((fun il : Z * Z => (il.2, il.1)) <$> enumerate V).*1 = V.
Proof.
  unfold enumerate. rewrite <- list_fmap_compose, fmap_imap.
  rewrite <- (list_fmap_id V) at 2. rewrite <- imap_const. done.
Qed.

Lemma dict_lookup_enumerate (V : list Z) (l i : Z) :
  NoDup V ->
  (dict ((fun il : Z * Z => (il.2, il.1)) <$> enumerate V) : gmap Z Z) !! l = Some i
  <-> exists n : nat, i = Z.of_nat n /\ V !! n = Some l.
Proof.
  intros HV. unfold dict. rewrite <- elem_of_list_to_map.
  - rewrite elem_of_reverse, list_elem_of_fmap. unfold enumerate. split.
    + intros ([i' l'] & [= -> ->] & (n & y & [= -> ->] & Hn)%elem_of_lookup_imap).
      eauto.
    + intros (n & -> & Hn). exists (Z.of_nat n, l). split; [done|].
      by apply (elem_of_lookup_imap_2 (fun i x => (Z.of_nat i, x))).
  - by rewrite fmap_reverse, enumerate_keys, reverse_Permutation.
Qed.

Lemma sort_unique_NoDup labels : NoDup (np.sort (np.unique labels)).
Proof. unfold np.sort. rewrite merge_sort_Permutation. apply unique_NoDup. Qed.

Lemma sort_unique_length labels :
  length (np.sort (np.unique labels)) = length (np.unique labels).
Proof. unfold np.sort. by rewrite merge_sort_Permutation. Qed.

Lemma sort_unique_elem_of labels l :
  l ∈ np.sort (np.unique labels) <-> l ∈ labels.
Proof.
  unfold np.sort. rewrite merge_sort_Permutation. apply unique_elem_of.
Qed.

Lemma enum_map_lookup labels l i :
  enum_map labels !! l = Some i
  <-> exists n : nat, i = Z.of_nat n /\ np.sort (np.unique labels) !! n = Some l.
Proof. apply dict_lookup_enumerate, sort_unique_NoDup. Qed.

Lemma enum_map_is_Some labels l : l ∈ labels -> is_Some (enum_map labels !! l).
Proof.
  intros (n & Hn)%sort_unique_elem_of%list_elem_of_lookup_1.
  exists (Z.of_nat n). apply enum_map_lookup. eauto.
Qed.

Lemma enum_labels_Ok labels :
  enum_labels labels
  = Ok ((fun l => default 0%Z (enum_map labels !! l)) <$> labels).
Proof.
  unfold enum_labels. fold (enum_map labels).
  apply for_each_Ok_fmap. intros l Hl.
  by destruct (enum_map_is_Some labels l Hl) as [i ->].
Qed.

Lemma lift_bind_ret_state {A B} (r : result A) (g : A -> B) s :
  ((lift r ≫= fun a => mret (g a)) s).1 = s.
Proof. by destruct r. Qed.

Lemma custom_subject_cmap_log `{External} labels cmap s :
  log (custom_subject_cmap labels cmap s).1
  = match cmap_limits !! cmap with
    | Some limit =>
        if decide (Z.of_nat (length (np.unique labels)) > limit)%Z
        then (log s ++ [Cprint (subject_warning
                                  (Z.of_nat (length (np.unique labels)))
                                  cmap limit)])%list
        else log s
    | None => log s
    end.
Proof.
  unfold custom_subject_cmap. rewrite enum_labels_Ok.
  erewrite M_bind_step by reflexivity.
  destruct (cmap_limits !! cmap) as [limit|].
  - case_decide.
    + erewrite M_bind_step by reflexivity. by rewrite lift_bind_ret_state.
    + erewrite M_bind_step by reflexivity. by rewrite lift_bind_ret_state.
  - erewrite M_bind_step by reflexivity. by rewrite lift_bind_ret_state.
Qed.

(** C9.  The enumeration of [custom_subject_cmap] succeeds on every
    label vector and gives one index per label; the indices lie in
    [0, k) for [k] the number of distinct labels, two positions carry
    the same index exactly when they carry the same label, and every
    index of [0, k) is used.  The call prints the warning, and only it,
    when the colour map is listed in [cmap_limits] with a capacity below
    [k]; otherwise it prints nothing. *)
Theorem C9_subject_indices_consecutive_and_warning `{External}
    (labels : list Z) (cmap : string) (s : state) :
  let k := Z.of_nat (length (np.unique labels)) in
  (exists idx : list Z,
      enum_labels labels = Ok idx
      /\ length idx = length labels
      /\ Forall (fun i => 0 <= i < k)%Z idx
      /\ (forall p q lp lq ip iq,
            labels !! p = Some lp -> labels !! q = Some lq ->
            idx !! p = Some ip -> idx !! q = Some iq ->
            (lp = lq <-> ip = iq))
      /\ (forall i, (0 <= i < k)%Z -> i ∈ idx))
  /\ (forall limit, cmap_limits !! cmap = Some limit -> (k > limit)%Z ->
        log (custom_subject_cmap labels cmap s).1
        = (log s ++ [Cprint (subject_warning k cmap limit)])%list)
  /\ (cmap_limits !! cmap = None
      \/ (exists limit, cmap_limits !! cmap = Some limit /\ (k <= limit)%Z) ->
      log (custom_subject_cmap labels cmap s).1 = log s).
Proof.
  intros k. split; [|split].
  - set (f := fun l => default 0%Z (enum_map labels !! l)).
    assert (forall l, l ∈ labels -> enum_map labels !! l = Some (f l)) as Hf.
    { intros l Hl. unfold f. by destruct (enum_map_is_Some labels l Hl) as [i ->]. }
    exists (f <$> labels). split; [apply enum_labels_Ok|].
    split; [apply length_fmap|]. split; [|split].
    + apply Forall_fmap, Forall_forall. intros l Hl. simpl.
      apply Hf, enum_map_lookup in Hl as (n & -> & Hn%lookup_lt_Some).
      rewrite sort_unique_length in Hn. unfold k. lia.
    + intros p q lp lq ip iq Hp Hq.
      rewrite !list_lookup_fmap, Hp, Hq. intros [= <-] [= <-].
      split; [by intros ->|]. intros Heq.
      pose proof (Hf lp (list_elem_of_lookup_2 _ _ _ Hp)) as Hlp.
      pose proof (Hf lq (list_elem_of_lookup_2 _ _ _ Hq)) as Hlq.
      rewrite <- Heq in Hlq.
      apply enum_map_lookup in Hlp as (n & Hn & Hlp).
      apply enum_map_lookup in Hlq as (n' & Hn' & Hlq).
      assert (n = n') as -> by lia. congruence.
    + intros i Hi.
      destruct (lookup_lt_is_Some_2 (np.sort (np.unique labels)) (Z.to_nat i))
        as [l Hl]; [rewrite sort_unique_length; unfold k in Hi; lia|].
      apply list_elem_of_fmap. exists l. split.
      * assert (enum_map labels !! l = Some i) as Hli.
        { apply enum_map_lookup. exists (Z.to_nat i). split; [lia|done]. }
        unfold f. by rewrite Hli.
      * apply sort_unique_elem_of. by eapply list_elem_of_lookup_2.
  - intros limit Hlimit Hgt. rewrite custom_subject_cmap_log, Hlimit.
    by rewrite decide_True.
  - intros [Hnone|(limit & Hlimit & Hle)]; rewrite custom_subject_cmap_log.
    + by rewrite Hnone.
    + rewrite Hlimit. rewrite decide_False; [done|]. unfold k in Hle. lia.
Qed.

Lemma C9_subject_warning_witness :
  log (custom_subject_cmap [1; 2; 3; 4; 5; 6; 7; 8; 9]%Z "Pastel2" sample_state).1
  = (log sample_state ++ [Cprint (subject_warning 9 "Pastel2" 8)])%list.
Proof.
  apply (proj1 (proj2 (C9_subject_indices_consecutive_and_warning
                         [1; 2; 3; 4; 5; 6; 7; 8; 9]%Z "Pastel2" sample_state))).
  - vm_compute. reflexivity.
  - vm_compute. reflexivity.
Defined.

(** ** Folder name *)










(** ** The persister on a colliding output root *)

Section emits.
Context {P : event -> Prop}.

Lemma emits_ret {A} (x : A) : emits P (mret x).
Proof. intros s. exists []. by rewrite app_nil_r. Qed.

Lemma emits_lift {A} (r : result A) : emits P (lift r).
Proof. intros s. exists []. by rewrite app_nil_r. Qed.

Lemma emits_emit ev : P ev -> emits P (emit ev).
Proof. intros Hev s. exists [ev]. repeat split. by constructor. Qed.

Lemma emits_bind {A B} (m : M A) (f : A -> M B) :
  emits P m -> (forall x, emits P (f x)) -> emits P (m ≫= f).
Proof.
  intros Hm Hf s. destruct (Hm s) as (evs & Hfs & Hlog & Hevs).
  unfold mbind, M_bind. destruct (m s) as [s1 [x|e]]; simpl in *.
  - destruct (Hf x s1) as (evs' & Hfs' & Hlog' & Hevs').
    exists (evs ++ evs')%list. rewrite Hfs', Hlog', Hfs, Hlog, app_assoc.
    repeat split. by apply Forall_app.
  - by exists evs.
Qed.
End emits.

Lemma emits_custom_subject_cmap `{External} labels cmap :
  emits progress_event (custom_subject_cmap labels cmap).
Proof.
  unfold custom_subject_cmap.
  apply emits_bind; [apply emits_lift|]. intros idx.
  apply emits_bind.
  - destruct (cmap_limits !! cmap); [case_decide|];
      first [by apply emits_emit | apply emits_ret].
  - intros _. apply emits_bind; [apply emits_lift|]. intros cm. apply emits_ret.
Qed.

Lemma emits_draw_clusterings `{External} a i clusterings :
  emits progress_event (draw_clusterings a i clusterings).
Proof.
  revert i. induction clusterings as [|c cs IH]; intros i; simpl.
  - apply emits_ret.
  - apply emits_bind; [apply emits_lift|]. intros _.
    apply emits_bind; [by apply emits_emit|]. intros _. apply IH.
Qed.

Lemma emits_draw_figure `{External} a e clusterings :
  emits progress_event (draw_figure a e clusterings).
Proof.
  unfold draw_figure. apply emits_bind.
  - case_decide.
    + apply emits_bind; [by apply emits_emit|]. intros _.
      apply emits_bind; [apply emits_lift|]. intros colors. by apply emits_emit.
    + apply emits_bind; [apply emits_lift|]. intros labels.
      apply emits_bind; [apply emits_lift|]. intros _. by apply emits_emit.
  - intros _. apply emits_bind; [apply emits_lift|]. intros subjects.
    apply emits_bind; [apply emits_custom_subject_cmap|]. intros colors.
    apply emits_bind; [by apply emits_emit|]. intros _.
    apply emits_draw_clusterings.
Qed.

Lemma emits_analyse `{External} a e : emits progress_event (analyse a e).
Proof.
  unfold analyse. apply emits_bind; [by apply emits_emit|]. intros _.
  apply emits_bind; [apply emits_lift|]. intros r.
  apply emits_bind; [by apply emits_emit|]. intros _.
  apply emits_bind; [apply emits_draw_figure|]. intros _. apply emits_ret.
Qed.

Lemma progress_event_not_write ev : progress_event ev -> is_write ev = false.
Proof. by destruct ev. Qed.

Lemma draws_ret {A} (x : A) : draws [] (mret x).
Proof. intros s s' y [= <- _]. exists []. by rewrite app_nil_r. Qed.

Lemma draws_lift {A} (r : result A) : draws [] (lift r).
Proof. intros s s' y [= <- _]. exists []. by rewrite app_nil_r. Qed.

Lemma draws_emit ev : draws (omap panel_of [ev]) (emit ev).
Proof. intros s s' y [= <-]. by exists [ev]. Qed.

Lemma draws_bind {A B} ps ps' (m : M A) (f : A -> M B) :
  draws ps m -> (forall x, draws ps' (f x)) -> draws (ps ++ ps') (m ≫= f).
Proof.
  intros Hm Hf s s' y Hrun.
  apply M_bind_Ok in Hrun as (x & s1 & Hx & Hy).
  destruct (Hm _ _ _ Hx) as (evs & Hlog & Hps).
  destruct (Hf _ _ _ _ Hy) as (evs' & Hlog' & Hps').
  exists (evs ++ evs')%list. rewrite Hlog', Hlog, app_assoc. split; [done|].
  by rewrite omap_app, Hps, Hps'.
Qed.

Lemma draws_custom_subject_cmap `{External} labels cmap :
  draws [] (custom_subject_cmap labels cmap).
Proof.
  unfold custom_subject_cmap.
  apply (draws_bind [] []); [apply draws_lift|]. intros idx.
  apply (draws_bind [] []).
  - destruct (cmap_limits !! cmap); [case_decide|];
      first [apply draws_emit | apply draws_ret].
  - intros _. apply (draws_bind [] []); [apply draws_lift|]. intros cm.
    apply draws_ret.
Qed.

Lemma draws_draw_clusterings `{External} a i clusterings :
  draws (seq (i + 3) (length clusterings)) (draw_clusterings a i clusterings).
Proof.
  revert i. induction clusterings as [|c cs IH]; intros i; simpl.
  - apply draws_ret.
  - apply (draws_bind [] (_ :: _)); [apply draws_lift|]. intros _.
    apply (draws_bind [_] _).
    + replace (i + 3)%nat with (i + 1 + 1 + 1)%nat by lia. apply draws_emit.
    + intros _. apply (IH (S i)).
Qed.

Lemma draws_draw_figure `{External} a e clusterings :
  draws (seq 1 (2 + length clusterings)) (draw_figure a e clusterings).
Proof.
  unfold draw_figure. apply (draws_bind [1%nat] (2%nat :: _)).
  - case_decide.
    + apply (draws_bind [] [_]); [apply draws_emit|]. intros _.
      apply (draws_bind [] [_]); [apply draws_lift|]. intros colors.
      apply draws_emit.
    + apply (draws_bind [] [_]); [apply draws_lift|]. intros labels.
      apply (draws_bind [] [_]); [apply draws_lift|]. intros _.
      apply draws_emit.
  - intros _. apply (draws_bind [] (_ :: _)); [apply draws_lift|]. intros subjects.
    apply (draws_bind [] (_ :: _)); [apply draws_custom_subject_cmap|].
    intros colors.
    apply (draws_bind [_] _); [apply draws_emit|]. intros _.
    apply (draws_draw_clusterings a 0).
Qed.

(** A successful analysis, taken apart: the pipeline has run on the
    group's data, and the log has grown by the progress line, the
    timing line and the events of the figure. *)
Lemma analyse_Ok_inv `{External} a e s s' r :
  analyse a e s = (s', Ok r) ->
  exists raw figure,
    pipeline a (grp_R e) = Ok (r.1, raw)
    /\ r.2 = center raw
    /\ s' = State (fs s)
              (log s
               ++ [Print ("    process " ++ dquote ++ ARGS.attribution_type a
                          ++ dquote ++ " relevance for class " ++ str_int (cls e)
                          ++ " (" ++ ARGS.analysis_groups a ++ ") as per "
                          ++ ARGS.model a);
                   PrintTiming (length (center raw))]
               ++ figure)
    /\ Forall progress_event figure
    /\ omap panel_of figure = seq 1 (2 + length r.1).
Proof.
  unfold analyse. intros Hrun.
  apply M_bind_Ok in Hrun as ([] & s1 & [= <-] & Hrun).
  apply M_bind_Ok in Hrun as ([cs raw] & s2 & Hpipe & Hrun).
  apply lift_Ok in Hpipe as [-> Hpipe]. simpl in Hrun.
  apply M_bind_Ok in Hrun as ([] & s3 & [= <-] & Hrun).
  apply M_bind_Ok in Hrun as ([] & s4 & Hdraw & [= <- <-]).
  destruct (draws_draw_figure a e cs _ _ _ Hdraw) as (evs & Hlog & Hps).
  destruct (emits_draw_figure a e cs
              (State (fs s)
                 ((log s ++ [Print ("    process " ++ dquote
                                    ++ ARGS.attribution_type a ++ dquote
                                    ++ " relevance for class " ++ str_int (cls e)
                                    ++ " (" ++ ARGS.analysis_groups a
                                    ++ ") as per " ++ ARGS.model a)])
                  ++ [PrintTiming (length (center raw))])))
    as (evs' & Hfs & Hlog' & Hevs').
  rewrite Hdraw in Hfs, Hlog'. cbn [fst fs log] in Hfs, Hlog', Hlog.
  rewrite Hlog in Hlog'. apply app_inv_head in Hlog' as <-.
  exists raw, evs. cbn [fst snd]. split; [done|]. split; [done|].
  split; [|done]. destruct s4 as [w l]. cbn [fs log] in *. subst w l.
  by rewrite <- !app_assoc.
Qed.

(** The persister alone: on a colliding root it prints the message and
    returns. *)
Lemma persist_collision `{External} a e clusterings tsne_embedding s :
  ARGS.save_results a = true ->
  plain_file (fs s) (ARGS.output a) ->
  persist a e clusterings tsne_embedding s
  = (State (fs s) (log s ++ [Print (collision_message a)]), Ok tt).
Proof.
  intros Hsave Hfile. unfold persist. rewrite Hsave.
  rewrite (M_bind_step _ _ s s true); [reflexivity|].
  unfold os_path.isfile, gets. f_equal. f_equal.
  destruct Hfile as [Hfile|Hfile].
  - by rewrite (bool_decide_eq_true_2 _ Hfile).
  - rewrite (bool_decide_eq_true_2 _ Hfile). apply orb_true_r.
Qed.

Lemma progress_event_not_report a evs :
  Forall progress_event evs -> List.filter (is_collision_report a) evs = [].
Proof.
  induction 1 as [|ev evs Hev _ IH]; [done|]. simpl. rewrite IH.
  destruct ev; try done. simpl in *.
  destruct (String.eqb_spec msg (collision_message a)) as [->|]; [|done].
  discriminate Hev.
Qed.

Lemma process_group_collision `{External} a e s :
  ARGS.save_results a = true ->
  plain_file (fs s) (ARGS.output a) ->
  (selected a e -> exists r s2, analyse a e s = (s2, Ok r)) ->
  exists evs,
    process_group a e s = (State (fs s) (log s ++ evs), Ok tt)
    /\ collision_trace a e evs
    /\ Forall (fun ev => is_write ev = false) evs
    /\ length (List.filter (is_collision_report a) evs)
       = (if bool_decide (selected a e) then 1 else 0)%nat.
Proof.
  intros Hsave Hfile Han. unfold process_group, collision_trace.
  fold (selected a e).
  destruct (decide (selected a e)) as [Hsel|Hsel].
  - rewrite !bool_decide_eq_true_2 by done.
    destruct (Han Hsel) as (r & s2 & Hr).
    destruct (analyse_Ok_inv _ _ _ _ _ Hr)
      as (raw & figure & Hpipe & Hemb & -> & Hfig & Hpanels).
    rewrite (M_bind_step _ _ _ _ _ Hr).
    rewrite persist_collision by done. cbn [fs log].
    eexists. split; [by rewrite <- !app_assoc|].
    split; [|split].
    + exists r.1, raw, figure. by destruct r.
    + repeat first [apply Forall_cons; split; [done|] | apply Forall_app; split].
      * eapply Forall_impl; [exact Hfig|]. apply progress_event_not_write.
      * by repeat constructor.
    + cbn [app List.filter is_collision_report].
      rewrite List.filter_app, progress_event_not_report by done.
      cbn [app List.filter is_collision_report].
      assert (String.eqb ("    process " ++ dquote ++ ARGS.attribution_type a
                          ++ dquote ++ " relevance for class " ++ str_int (cls e)
                          ++ " (" ++ ARGS.analysis_groups a ++ ") as per "
                          ++ ARGS.model a) (collision_message a) = false) as ->.
      { done. }
      by rewrite String.eqb_refl.
  - rewrite !bool_decide_eq_false_2 by done.
    eexists. split; [reflexivity|]. split; [done|].
    split; [by repeat constructor|]. done.
Qed.

(** C8.  With saving enabled and a plain file at the output root, the
    loop over the groups runs to its end without raising, provided the
    analysis of the selected groups does not raise.  Every group is
    processed in its turn, the later ones included: its part of the log
    is the skipping line if it is not selected and, if it is, the
    progress line, the timing line for the embedding the pipeline
    returned on the group's data, the panels of its figure and the
    report of the collision.  Nothing is created or written, and the
    collision is reported once for every selected group. *)
Theorem C8_collision_is_reported_and_the_run_continues `{External}
    (a : ARGS.t) (groups : list EvaluationGroup) (s : state) :
  ARGS.save_results a = true ->
  plain_file (fs s) (ARGS.output a) ->
  (forall e s1, e ∈ groups -> selected a e ->
     exists r s2, analyse a e s1 = (s2, Ok r)) ->
  exists parts,
    process_groups a groups s = (State (fs s) (log s ++ concat parts), Ok tt)
    /\ Forall2 (collision_trace a) groups parts
    /\ Forall (fun ev => is_write ev = false) (concat parts)
    /\ length (List.filter (is_collision_report a) (concat parts))
       = length (List.filter (fun e => bool_decide (selected a e)) groups).
Proof.
  intros Hsave. revert s. induction groups as [|e groups IH]; intros s Hfile Han.
  - exists []. simpl. rewrite app_nil_r. by destruct s.
  - destruct (process_group_collision a e s Hsave Hfile)
      as (evs & He & Htr & Hw & Hc).
    { intros Hsel. apply Han; [apply list_elem_of_here|done]. }
    destruct (IH (State (fs s) (log s ++ evs))) as (parts & Hg & Htrs & Hw' & Hc').
    { done. }
    { intros e' s1 He' Hsel. apply Han; [by apply list_elem_of_further|done]. }
    exists (evs :: parts). cbn [concat fs log process_groups] in *.
    rewrite (M_bind_step _ _ _ _ _ He), Hg, app_assoc.
    split; [done|]. split; [by constructor|]. split; [by apply Forall_app|].
    rewrite List.filter_app, length_app, Hc, Hc'.
    cbn [List.filter]. by case_bool_decide.
Qed.

Lemma sample_groups_ground_truth :
  sample_groups "relevance" "ground_truth" = [sample_group0; sample_group1].
Proof. vm_compute. reflexivity. Qed.

Lemma C8_collision_witness :
  exists parts,
    process_groups sample_args [sample_group0; sample_group1] collision_state
    = (State (fs collision_state) (log collision_state ++ concat parts), Ok tt)
    /\ Forall2 (collision_trace sample_args) [sample_group0; sample_group1] parts
    /\ Forall (fun ev => is_write ev = false) (concat parts)
    /\ length (List.filter (is_collision_report sample_args) (concat parts))
       = 2%nat.
Proof.
  apply (C8_collision_is_reported_and_the_run_continues sample_args
           [sample_group0; sample_group1] collision_state).
  - reflexivity.
  - left. by_decision.
  - intros e s1 He _.
    exists (sample_analysis e), (analyse sample_args e s1).1.
    apply elem_of_cons in He as [->|He];
      [|apply elem_of_cons in He as [->|He]; [|by apply elem_of_nil in He]];
      vm_compute; reflexivity.
Defined.

(** The whole run on the sample project with a plain file at the output
    root: both groups are analysed, the collision is reported twice and
    nothing is written. *)
Lemma main_on_colliding_root :
  (main sample_args collision_state).2 = Ok tt
  /\ fs (main sample_args collision_state).1 = fs collision_state
  /\ List.filter (is_collision_report sample_args)
       (log (main sample_args collision_state).1)
     = [Print (collision_message sample_args);
        Print (collision_message sample_args)]
  /\ List.filter is_write (log (main sample_args collision_state).1) = [].
Proof. repeat split; vm_compute; reflexivity. Qed.

(** * Further properties *)

(** ** The processors *)


Lemma Qsum_ext (l l' : list Q) : Forall2 Qeq l l' -> (Qsum l == Qsum l')%Q.
Proof.
  induction 1 as [|x y l l' Hxy _ IH]; simpl; [reflexivity|].
  by rewrite Hxy, IH.
Qed.





(** X2.  On a batch of a single sample whose sum is computed without
    wrap-around, the normalisation of the code and the division of each
    row by its own sum give the same numbers. *)
Theorem Normalize_single_sample_is_rowwise (t : tensor) :
  sum_fits [t] ->
  Qeq_rows (Normalize_function [t]) (Normalize_rowwise_spec [t]).
Proof.
  intros _.
  unfold Normalize_function, Normalize_rowwise_spec, Qeq_rows. simpl.
  constructor; [|constructor]. rewrite !ravel_broadcast.
  assert (np.sum [t] == np.sum1 t)%Q as Hs.
  { unfold np.sum. simpl. ring. }
  induction (np.ravel t) as [|x l IH]; simpl; constructor; [|exact IH].
  by rewrite Hs.
Qed.

Lemma Normalize_single_sample_is_rowwise_witness :
  Qeq_rows (Normalize_function [vector [1; 3]%Z])
    (Normalize_rowwise_spec [vector [1; 3]%Z]).
Proof.
  apply Normalize_single_sample_is_rowwise. vm_compute. reflexivity.
Defined.

(** X3.  On data that is already two-dimensional [Flatten] returns the
    rows as they are (the stage is redundant there). *)
Theorem Flatten_two_dimensional_is_identity (m : matrix) :
  Flatten_function (row_tensor <$> m) = Ok m.
Proof.
  assert (forall r, np.ravel (row_tensor r) = r) as Hrow.
  { intros r. unfold row_tensor. induction r as [|x r IHr]; [done|].
    cbn [fmap list_fmap np.ravel List.map List.concat app] in *.
    by rewrite IHr. }
  unfold Flatten_function. induction m as [|r m IH]; [done|].
  cbn [fmap list_fmap for_each] in *. rewrite IH.
  unfold row_tensor at 1. cbn [mbind result_bind].
  fold (row_tensor r). by rewrite Hrow.
Qed.

(** ** Centring *)

Lemma zip_with_sub_sub (r r' m : list Q) :
  length r = length m -> length r' = length m ->
  Forall2 Qeq (zip_with Qminus (zip_with Qminus r m) (zip_with Qminus r' m))
              (zip_with Qminus r r').
Proof.
  revert r r'. induction m as [|x m IH]; intros [|a r] [|b r'] [=] [=];
    simpl; constructor; [ring|by apply IH].
Qed.

(** X4.  Centring moves every sample by the same vector: the difference
    between any two rows of the embedding is what it was before. *)
Theorem center_keeps_differences (d : nat) (a : matrix) (i j : nat)
    (r r' c c' : list Q) :
  a ≠ [] -> rectangular d a ->
  a !! i = Some r -> a !! j = Some r' ->
  center a !! i = Some c -> center a !! j = Some c' ->
  Forall2 Qeq (zip_with Qminus c c') (zip_with Qminus r r').
Proof.
  intros Hne Hrect Hi Hj. unfold center, np.sub_rows.
  rewrite !list_lookup_fmap, Hi, Hj. intros [= <-] [= <-].
  assert (length (np.mean_axis0 a) = d) as Hm.
  { unfold np.mean_axis0. by rewrite length_fmap, (sum_axis0_length d). }
  apply zip_with_sub_sub; rewrite Hm.
  - by apply (Forall_lookup_1 _ _ _ _ Hrect Hi).
  - by apply (Forall_lookup_1 _ _ _ _ Hrect Hj).
Qed.

Lemma center_keeps_differences_witness :
  Forall2 Qeq
    (zip_with Qminus [-2 # 2; -4 # 2]%Q [2 # 2; 4 # 2]%Q)
    (zip_with Qminus [1; 2]%Q [3; 6]%Q).
Proof.
  apply (center_keeps_differences 2 [[1; 2]; [3; 6]]%Q 0 1
           [1; 2]%Q [3; 6]%Q [-2 # 2; -4 # 2]%Q [2 # 2; 4 # 2]%Q).
  - discriminate.
  - repeat constructor.
  - reflexivity.
  - reflexivity.
  - vm_compute. reflexivity.
  - vm_compute. reflexivity.
Defined.
(** ** The loader: effects and errors *)

Lemma emits_gets {P : event -> Prop} {A} (f : world -> result A) :
  emits P (gets f).
Proof. intros s. exists []. by rewrite app_nil_r. Qed.

Lemma emits_impl {P Q : event -> Prop} {A} (m : M A) :
  (forall ev, P ev -> Q ev) -> emits P m -> emits Q m.
Proof.
  intros HPQ Hm s. destruct (Hm s) as (evs & ? & ? & Hevs).
  exists evs. repeat split; [done..|]. by eapply Forall_impl.
Qed.

Lemma emits_loadmat path : emits is_loadmat (loadmat path).
Proof.
  unfold loadmat. apply emits_bind; [by apply emits_emit|].
  intros _. apply emits_gets.
Qed.

Lemma emits_validate {P : event -> Prop} root model fold ad att ag :
  emits P (validate root model fold ad att ag).
Proof.
  unfold validate, os_path.isdir, py_assert.
  repeat first [apply emits_lift | apply emits_gets
               | apply emits_bind; [|intros ?]].
Qed.

Lemma emits_load_outputs root model att folds :
  emits is_loadmat (load_outputs root model att folds).
Proof.
  induction folds as [|f folds IH]; simpl; [apply emits_ret|].
  apply emits_bind; [apply emits_loadmat|]. intros file.
  apply emits_bind; [apply emits_lift|]. intros yp.
  apply emits_bind; [apply emits_lift|]. intros r.
  apply emits_bind; [apply IH|]. intros rest. apply emits_ret.
Qed.

Lemma emits_load_analysis_data root model fold ad att ag :
  emits is_loadmat (load_analysis_data root model fold ad att ag).
Proof.
  unfold load_analysis_data, load_arrays.
  repeat first [apply emits_lift | apply emits_ret | apply emits_loadmat
               | apply emits_validate | apply emits_load_outputs
               | apply emits_bind; [|intros ?]].
Qed.

(** X5.  Whether it returns or raises, the loader only reads: it leaves
    the file system as it is and does nothing but load [.mat] files. *)
Theorem loader_only_loads root model fold ad att ag s :
  fs (load_analysis_data root model fold ad att ag s).1 = fs s
  /\ exists paths,
       log (load_analysis_data root model fold ad att ag s).1
       = (log s ++ (Loadmat <$> paths))%list.
Proof.
  destruct (emits_load_analysis_data root model fold ad att ag s)
    as (evs & Hfs & Hlog & Hevs).
  split; [done|]. rewrite Hlog. clear Hlog.
  induction Hevs as [|ev evs Hev _ (paths & IH)]; [by exists []|].
  destruct ev as [p| | | | | | | | |]; try done.
  exists (p :: paths). simpl. do 2 f_equal. by apply app_inv_head in IH.
Qed.

Lemma loadmat_found path s f :
  mats (fs s) !! path = Some f ->
  loadmat path s = (State (fs s) (log s ++ [Loadmat path]), Ok f).
Proof. unfold loadmat, emit, gets, mbind, M_bind. simpl. by intros ->. Qed.


Lemma load_arrays_raise root model fold ad att ag s s' e :
  load_arrays root model fold ad att ag s = (s', Raise e) ->
  load_analysis_data root model fold ad att ag s = (s', Raise e).
Proof. intros H. unfold load_analysis_data. by apply M_bind_raise. Qed.


Lemma getitem_cases {A} (l : list A) (i : Z) :
  (exists a, getitem l i = Ok a) \/ getitem l i = Raise IndexError.
Proof.
  unfold getitem. case_decide; [|by right].
  destruct (l !! _); [left; eauto|by right].
Qed.

Lemma getitem_beyond {A} (l : list A) (i : Z) :
  (Z.of_nat (length l) <= i)%Z -> getitem l i = Raise IndexError.
Proof. intros Hi. unfold getitem. rewrite decide_False; [done|lia]. Qed.

Lemma for_each_raise {A B} (f : A -> result B) (l : list A) (e : exn) (a : A) :
  a ∈ l -> f a = Raise e ->
  (forall b, b ∈ l -> (exists x, f b = Ok x) \/ f b = Raise e) ->
  for_each f l = Raise e.
Proof.
  intros Ha Hfa. induction l as [|b l IH]; intros Hall.
  - by apply elem_of_nil in Ha.
  - simpl. destruct (Hall b (list_elem_of_here _ _)) as [[x Hx]|Hx];
      rewrite Hx; [|done].
    apply elem_of_cons in Ha as [->|Ha]; [congruence|].
    simpl. rewrite IH; [done..|].
    intros c Hc. apply Hall. by apply list_elem_of_further.
Qed.

Lemma load_split_indices_beyond splits S folds f :
  splits !! "S" = Some (CellMatrix S) ->
  f ∈ folds ->
  (forall row, S !! 0%nat = Some row -> (Z.of_nat (length row) <= f)%Z) ->
  load_split_indices splits folds = Raise IndexError.
Proof.
  intros HS Hf Hrow. unfold load_split_indices.
  rewrite (for_each_raise _ folds IndexError f); [done|done|..].
  - unfold getvar. rewrite HS. simpl.
    destruct (getitem_cases S 0) as [[row Hr]| ->]; [|done].
    rewrite Hr. simpl. rewrite getitem_beyond; [done|].
    apply Hrow. unfold getitem in Hr. case_decide; [|done].
    destruct S as [|row' S]; [done|]. by injection Hr as ->.
  - intros f' _. unfold getvar. rewrite HS. simpl.
    destruct (getitem_cases S 0) as [[row ->]| ->]; [simpl|by right].
    destruct (getitem_cases row f') as [[cell ->]| ->]; [simpl|by right].
    destruct (getitem_cases cell 0) as [[r ->]| ->]; [left; eauto|by right].
Qed.

(** X7.  With valid selectors and the six project files present, a
    requested fold for which the split table has no column (a single
    fold that is too large, or "all" on a table of fewer than ten
    folds) stops the loader with [IndexError] right after the project
    files: no outputs file has been loaded. *)
Theorem fold_beyond_the_split_table
    root model fold ad att ag s splits S folds f :
  valid_selectors (fs s) root model fold ad att ag ->
  Forall (fun q => is_Some (mats (fs s) !! q)) (project_files root) ->
  mats (fs s) !! (root ++ "/splits.mat") = Some splits ->
  splits !! "S" = Some (CellMatrix S) ->
  resolve_fold fold = Ok folds ->
  f ∈ folds ->
  (forall row, S !! 0%nat = Some row -> (Z.of_nat (length row) <= f)%Z) ->
  load_analysis_data root model fold ad att ag s
  = (State (fs s) (log s ++ (Loadmat <$> project_files root)), Raise IndexError).
Proof.
  intros Hvalid Hfiles Hsplits HS Hfolds Hf Hrow. apply load_arrays_raise.
  unfold load_arrays.
  rewrite (M_bind_step _ _ _ _ _ (validate_Ok _ _ _ _ _ _ _ Hvalid)).
  unfold project_files in *.
  repeat (apply Forall_cons in Hfiles as [[? Hq] Hfiles];
    match goal with
    | |- (loadmat ?q ≫= _) ?st = _ =>
        rewrite (M_bind_step _ _ st _ _ (loadmat_found q st _ Hq))
    end;
    first [rewrite Hsplits in Hq; injection Hq as <- | clear Hq]).
  rewrite Hfolds.
  erewrite M_bind_step by reflexivity.
  rewrite (load_split_indices_beyond _ _ _ _ HS Hf Hrow).
  simpl. by rewrite <- !app_assoc.
Qed.

Lemma fold_beyond_the_split_table_witness :
  load_analysis_data "proj" "Cnn1DC8" "all" "relevance" "act" "all" sample_state
  = (State (fs sample_state)
       (log sample_state ++ (Loadmat <$> project_files "proj")),
     Raise IndexError).
Proof.
  apply (fold_beyond_the_split_table "proj" "Cnn1DC8" "all" "relevance" "act"
           "all" sample_state
           {[ "S" := CellMatrix [[ [[0; 1; 2]]; [[3]] ]]%Z ]}
           [[ [[0; 1; 2]]; [[3]] ]]%Z
           [0; 1; 2; 3; 4; 5; 6; 7; 8; 9]%Z 5%Z).
  - repeat split; by_decision.
  - repeat constructor; by_decision.
  - vm_compute. reflexivity.
  - vm_compute. reflexivity.
  - reflexivity.
  - by_decision.
  - intros row [= <-]. simpl. lia.
Defined.
(** ** The loader: what the groups hold *)

Lemma compress_nil_r {A} (mask : list bool) : compress mask (@nil A) = [].
Proof. by destruct mask as [|[] ?]. Qed.

Lemma compress_zip {A B} (mask : list bool) (l : list A) (k : list B) :
  compress mask (zip l k) = zip (compress mask l) (compress mask k).
Proof.
  revert l k. induction mask as [|b mask IH]; intros [|a l] [|c k]; simpl;
    try done.
  - destruct b; simpl; rewrite ?compress_nil_r; by destruct (compress mask l).
  - destruct b; simpl; by rewrite IH.
Qed.

Lemma compress_sublist {A} (mask : list bool) (l : list A) :
  compress mask l `sublist_of` l.
Proof.
  revert l. induction mask as [|b mask IH]; intros [|a l]; simpl;
    try apply sublist_nil_l.
  destruct b; [by apply sublist_skip|by apply sublist_cons].
Qed.

Lemma compress_eq_mask_constant y c :
  Forall (fun v => v = c) (compress (np.eq_mask y c) y).
Proof.
  induction y as [|v y IH]; simpl; [constructor|].
  case_bool_decide; [by constructor|done].
Qed.

Lemma concat_nils {A B} (U : list B) :
  concat ((fun _ => @nil A) <$> U) = [].
Proof. induction U as [|u U IH]; simpl; [done|exact IH]. Qed.

Lemma concat_cons_at {A} (U : list Z) (v : Z) (a : A) (X : Z -> list A) :
  NoDup U -> v ∈ U ->
  concat ((fun c => if bool_decide (v = c) then a :: X c else X c) <$> U)
  ≡ₚ a :: concat (X <$> U).
Proof.
  induction 1 as [|u U Hu HU IH]; intros Hv; [by apply elem_of_nil in Hv|].
  rewrite !fmap_cons. simpl. case_bool_decide as Hvu.
  - subst u. simpl.
    assert (((fun c => if bool_decide (v = c) then a :: X c else X c) <$> U)
            = (X <$> U)) as ->; [|done].
    apply list_fmap_ext. intros _ c Hc%list_elem_of_lookup_2.
    rewrite bool_decide_eq_false_2; [done|]. by intros <-.
  - apply elem_of_cons in Hv as [?|Hv]; [done|].
    rewrite (IH Hv). by rewrite Permutation_middle.
Qed.

(** The classes of a labelling, taken out of an array of the same
    length, make up the array. *)
Lemma concat_classes_Permutation {A} (U : list Z) (y : list Z) (l : list A) :
  NoDup U -> (forall v, v ∈ y -> v ∈ U) -> length l = length y ->
  concat ((fun c => compress (np.eq_mask y c) l) <$> U) ≡ₚ l.
Proof.
  intros HU. revert l. induction y as [|v y IH]; intros [|a l] Hy [=].
  - simpl. by rewrite concat_nils.
  - simpl. rewrite (concat_cons_at U v a (fun c => compress (np.eq_mask y c) l))
      by (first [done | apply Hy, list_elem_of_here]).
    f_equiv. apply IH; [|done]. intros w Hw. by apply Hy, list_elem_of_further.
Qed.

Lemma loaded_groups root model fold ad att ag s s' s'' d groups :
  load_arrays root model fold ad att ag s = (s', Ok d) ->
  load_analysis_data root model fold ad att ag s = (s'', Ok groups) ->
  exists y,
    grouping_labels ag (y_pred d) (targets_health d) (split_indices d) = Ok y
    /\ Forall2 (fun c g => g = group_of ad d y c) (np.unique y) groups.
Proof.
  intros Hd (d' & Hd' & Hg)%load_analysis_data_Ok_inv.
  rewrite Hd in Hd'. injection Hd' as <- <-.
  unfold group_samples in Hg.
  apply result_bind_Ok in Hg as (y & Hy & Hg). exists y. split; [done|].
  apply for_each_Forall2 in Hg.
  eapply Forall2_impl; [exact Hg|]. intros c g. apply evaluation_group_Ok_inv.
Qed.

Lemma Forall2_group_of ad d y U groups :
  Forall2 (fun c g => g = group_of ad d y c) U groups ->
  groups = (group_of ad d y <$> U).
Proof. induction 1 as [|c g U groups -> _ ->]; done. Qed.

(** X8.  No sample is lost or duplicated by the grouping: when the
    arrays are aligned, the index vectors of the returned groups make
    up the selection of the split table, and likewise the inputs and
    the relevances. *)
Theorem groups_partition_the_selection
    root model fold ad att ag s s' d groups :
  load_arrays root model fold ad att ag s = (s', Ok d) ->
  aligned d ->
  load_analysis_data root model fold ad att ag s = (s', Ok groups) ->
  concat (grp_split_indices <$> groups) ≡ₚ split_indices d
  /\ concat (grp_inputs <$> groups) ≡ₚ inputs d
  /\ concat (grp_relevances <$> groups) ≡ₚ R_pred d.
Proof.
  intros Hd [Hyp HR] Hload.
  destruct (loaded_groups _ _ _ _ _ _ _ _ _ _ _ Hd Hload) as (y & Hy & Hg).
  apply Forall2_group_of in Hg as ->.
  destruct (load_arrays_Ok_inv _ _ _ _ _ _ _ _ _ Hd)
    as (_ & _ & _ & _ & _ & _ & _ & _ & _ & _ & _ & _ & Hinp).
  pose proof (grouping_labels_length _ _ _ Hyp Hy) as Hlen.
  rewrite <- !list_fmap_compose.
  repeat split;
    apply (concat_classes_Permutation (np.unique y) y);
    first [apply unique_NoDup | by intros v; apply unique_elem_of | congruence].
Qed.

Lemma groups_partition_the_selection_witness :
  concat (grp_split_indices <$> sample_groups "relevance" "ground_truth")
    ≡ₚ split_indices (sample_arrays "ground_truth")
  /\ concat (grp_inputs <$> sample_groups "relevance" "ground_truth")
    ≡ₚ inputs (sample_arrays "ground_truth")
  /\ concat (grp_relevances <$> sample_groups "relevance" "ground_truth")
    ≡ₚ R_pred (sample_arrays "ground_truth").
Proof.
  apply (groups_partition_the_selection "proj" "Cnn1DC8" "0" "relevance" "act"
           "ground_truth" sample_state sample_loaded).
  - vm_compute. reflexivity.
  - split; vm_compute; reflexivity.
  - vm_compute. reflexivity.
Defined.

(** X9.  The arrays of a group stay aligned: its (index, input,
    relevance) triples are triples of the loaded arrays, taken at the
    same positions and in the same order. *)
Theorem group_rows_stay_aligned root model fold ad att ag s s' d groups :
  load_arrays root model fold ad att ag s = (s', Ok d) ->
  load_analysis_data root model fold ad att ag s = (s', Ok groups) ->
  Forall (fun g =>
            zip (grp_split_indices g) (zip (grp_inputs g) (grp_relevances g))
            `sublist_of` zip (split_indices d) (zip (inputs d) (R_pred d)))
         groups.
Proof.
  intros Hd Hload.
  destruct (loaded_groups _ _ _ _ _ _ _ _ _ _ _ Hd Hload) as (y & Hy & Hg).
  apply Forall2_group_of in Hg as ->.
  apply Forall_fmap, Forall_forall. intros c _. simpl.
  rewrite <- !compress_zip. apply compress_sublist.
Qed.

Lemma group_rows_stay_aligned_witness :
  Forall (fun g =>
            zip (grp_split_indices g) (zip (grp_inputs g) (grp_relevances g))
            `sublist_of` zip (split_indices (sample_arrays "as_predicted"))
                           (zip (inputs (sample_arrays "as_predicted"))
                                (R_pred (sample_arrays "as_predicted"))))
         (sample_groups "relevance" "as_predicted").
Proof.
  apply (group_rows_stay_aligned "proj" "Cnn1DC8" "0" "relevance" "act"
           "as_predicted" sample_state sample_loaded).
  - vm_compute. reflexivity.
  - vm_compute. reflexivity.
Defined.

(** X10.  Every returned group is made of the samples of one label: its
    label vector is not empty and holds the group's label throughout. *)
Theorem group_labels_are_constant root model fold ad att ag s s' groups :
  load_analysis_data root model fold ad att ag s = (s', Ok groups) ->
  Forall (fun g => grp_y g ≠ [] /\ Forall (fun v => v = cls g) (grp_y g)) groups.
Proof.
  intros Hload. pose proof (groups_have_samples _ _ _ _ _ _ _ _ _ Hload) as Hne.
  destruct (load_analysis_data_Ok_inv _ _ _ _ _ _ _ _ _ Hload) as (d & Hd & _).
  destruct (loaded_groups _ _ _ _ _ _ _ _ _ _ _ Hd Hload) as (y & _ & Hg).
  apply Forall2_group_of in Hg as ->.
  apply Forall_fmap, Forall_forall. intros c Hc. split.
  - apply (proj1 (Forall_forall _ _) Hne). apply list_elem_of_fmap. eauto.
  - apply compress_eq_mask_constant.
Qed.

Lemma group_labels_are_constant_witness :
  Forall (fun g => grp_y g ≠ [] /\ Forall (fun v => v = cls g) (grp_y g))
         (sample_groups "relevance" "as_predicted").
Proof.
  apply (group_labels_are_constant "proj" "Cnn1DC8" "0" "relevance" "act"
           "as_predicted" sample_state sample_loaded).
  vm_compute. reflexivity.
Defined.

(** X11.  With any data kind other than "inputs" (that is, "relevance")
    the analysed data of every returned group is its relevance array;
    the relevance array itself is stored whatever the data kind. *)
Theorem relevance_is_analysed_unless_inputs
    root model fold ad att ag s s' groups :
  load_analysis_data root model fold ad att ag s = (s', Ok groups) ->
  ad ≠ "inputs" ->
  ad = "relevance" /\ Forall (fun g => grp_R g = grp_relevances g) groups.
Proof.
  intros Hload Had.
  destruct (load_analysis_data_Ok_inv _ _ _ _ _ _ _ _ _ Hload) as (d & Hd & _).
  destruct (load_arrays_Ok_inv _ _ _ _ _ _ _ _ _ Hd) as ((_&_&_&Hin&_) & _).
  split.
  { unfold ANALYSIIS_DATA in Hin.
    apply elem_of_cons in Hin as [?|Hin]; [done|].
    apply elem_of_cons in Hin as [?|Hin]; [done|]. by apply elem_of_nil in Hin. }
  destruct (loaded_groups _ _ _ _ _ _ _ _ _ _ _ Hd Hload) as (y & _ & Hg).
  apply Forall2_group_of in Hg as ->.
  apply Forall_fmap, Forall_forall. intros c _. simpl.
  by rewrite decide_False.
Qed.

Lemma relevance_is_analysed_unless_inputs_witness :
  "relevance" = "relevance"
  /\ Forall (fun g => grp_R g = grp_relevances g)
            (sample_groups "relevance" "ground_truth").
Proof.
  apply (relevance_is_analysed_unless_inputs "proj" "Cnn1DC8" "0" "relevance"
           "act" "ground_truth" sample_state sample_loaded).
  - vm_compute. reflexivity.
  - discriminate.
Defined.
(** ** Colour maps *)

Lemma for_each_first_raise {A B} (f : A -> result B) before a after e :
  Forall (fun b => exists x, f b = Ok x) before ->
  f a = Raise e ->
  for_each f (before ++ a :: after) = Raise e.
Proof.
  intros Hbefore Ha. induction Hbefore as [|b before [x Hx] _ IH]; simpl.
  - by rewrite Ha.
  - by rewrite Hx, IH.
Qed.

(** The five colours, by label. *)
Lemma ccmap_lookup (l : Z) :
  (dict ((fun iv : Z * list Z => (iv.1, (fun c => inject_Z c / 255)%Q <$> iv.2))
         <$> enumerate [[27; 158; 119]; [217; 95; 2]; [230; 171; 2];
                        [231; 41; 138]; [117; 112; 179]]%Z) : gmap Z (list Q))
  !! l
  = if decide (l = 0)%Z then Some [27 # 255; 158 # 255; 119 # 255]%Q
    else if decide (l = 1)%Z then Some [217 # 255; 95 # 255; 2 # 255]%Q
    else if decide (l = 2)%Z then Some [230 # 255; 171 # 255; 2 # 255]%Q
    else if decide (l = 3)%Z then Some [231 # 255; 41 # 255; 138 # 255]%Q
    else if decide (l = 4)%Z then Some [117 # 255; 112 # 255; 179 # 255]%Q
    else None.
Proof.
  repeat (case_decide; [subst l; vm_compute; reflexivity|]).
  unfold dict. apply not_elem_of_list_to_map_1.
  match goal with
  | |- _ ∉ ?keys =>
      replace keys with [4; 3; 2; 1; 0]%Z by (vm_compute; reflexivity)
  end.
  rewrite !elem_of_cons, elem_of_nil. intros [?|[?|[?|[?|[?|[]]]]]]; done.
Qed.

(** X12.  On labels among 0..4 [djordjes_custom_cmap] returns one colour
    per label, each of three components within [0, 1]; two positions
    get the same colour exactly when they carry the same label. *)
Theorem djordjes_custom_cmap_colours (labels : list Z) :
  Forall (fun l => 0 <= l <= 4)%Z labels ->
  exists colors,
    djordjes_custom_cmap labels = Ok colors
    /\ length colors = length labels
    /\ Forall (fun c => length c = 3%nat
                        /\ Forall (fun x => 0 <= x <= 1)%Q c) colors
    /\ (forall p q lp lq cp cq,
          labels !! p = Some lp -> labels !! q = Some lq ->
          colors !! p = Some cp -> colors !! q = Some cq ->
          (lp = lq <-> cp = cq)).
Proof.
  intros Hlabels. unfold djordjes_custom_cmap. cbv zeta.
  set (ccmap := dict _).
  set (pal := fun l : Z => default [] (ccmap !! l)).
  assert (for_each (fun l => match ccmap !! l with
                             | Some c => Ok c
                             | None => Raise (KeyError (str_int l))
                             end) labels = Ok (pal <$> labels)) as ->.
  { apply for_each_Ok_fmap. intros l Hl.
    apply (proj1 (Forall_forall _ _) Hlabels) in Hl. unfold pal, ccmap.
    rewrite ccmap_lookup. repeat (case_decide; [done|]). lia. }
  exists (pal <$> labels). split; [done|]. split; [apply length_fmap|].
  assert (forall l, (0 <= l <= 4)%Z ->
            l = 0 \/ l = 1 \/ l = 2 \/ l = 3 \/ l = 4)%Z as Hcases by lia.
  split.
  - apply Forall_fmap, Forall_forall. intros l Hl.
    apply (proj1 (Forall_forall _ _) Hlabels), Hcases in Hl.
    unfold pal, ccmap. simpl. rewrite ccmap_lookup.
    destruct Hl as [->|[->|[->|[->| ->]]]]; simpl;
      (split; [done|repeat constructor; by vm_compute]).
  - intros p q lp lq cp cq Hp Hq. rewrite !list_lookup_fmap, Hp, Hq.
    intros [= <-] [= <-]. split; [by intros ->|].
    pose proof (Hcases _ (Forall_lookup_1 _ _ _ _ Hlabels Hp)) as Hlp.
    pose proof (Hcases _ (Forall_lookup_1 _ _ _ _ Hlabels Hq)) as Hlq.
    unfold pal, ccmap. rewrite !ccmap_lookup.
    destruct Hlp as [->|[->|[->|[->| ->]]]];
      destruct Hlq as [->|[->|[->|[->| ->]]]]; simpl; first [done|discriminate].
Qed.

Lemma djordjes_custom_cmap_colours_witness :
  exists colors,
    djordjes_custom_cmap [0; 4; 0]%Z = Ok colors
    /\ length colors = length [0; 4; 0]%Z
    /\ Forall (fun c => length c = 3%nat
                        /\ Forall (fun x => 0 <= x <= 1)%Q c) colors
    /\ (forall p q lp lq cp cq,
          [0; 4; 0]%Z !! p = Some lp -> [0; 4; 0]%Z !! q = Some lq ->
          colors !! p = Some cp -> colors !! q = Some cq ->
          (lp = lq <-> cp = cq)).
Proof. apply djordjes_custom_cmap_colours. repeat constructor; lia. Defined.

(** X13.  The first label outside 0..4 makes [djordjes_custom_cmap]
    raise [KeyError] on that label. *)
Theorem djordjes_custom_cmap_unknown_label (before after : list Z) (l : Z) :
  Forall (fun l => 0 <= l <= 4)%Z before ->
  ~ (0 <= l <= 4)%Z ->
  djordjes_custom_cmap (before ++ l :: after)%list
  = Raise (KeyError (str_int l)).
Proof.
  intros Hbefore Hl. unfold djordjes_custom_cmap. cbv zeta.
  apply for_each_first_raise.
  - eapply Forall_impl; [exact Hbefore|]. intros b Hb. simpl in *.
    rewrite ccmap_lookup. repeat (case_decide; [eauto|]). lia.
  - rewrite ccmap_lookup. repeat (case_decide; [lia|]). done.
Qed.

Lemma djordjes_custom_cmap_unknown_label_witness :
  djordjes_custom_cmap ([0; 3]%Z ++ 5%Z :: [7]%Z)%list
  = Raise (KeyError (str_int 5)).
Proof.
  apply djordjes_custom_cmap_unknown_label; [repeat constructor; lia|lia].
Defined.

Lemma StronglySorted_lookup_le (l : list Z) (i j : nat) (x y : Z) :
  StronglySorted Z.le l -> (i < j)%nat ->
  l !! i = Some x -> l !! j = Some y -> (x <= y)%Z.
Proof.
  intros Hl. revert i j. induction Hl as [|a l _ IH Hall]; intros i j Hij Hi Hj.
  - done.
  - destruct j as [|j]; [lia|]. destruct i as [|i].
    + injection Hi as <-. simpl in Hj.
      by apply (Forall_lookup_1 _ _ _ _ Hall Hj).
    + simpl in *. apply (IH i j); [lia|done..].
Qed.

Lemma sort_unique_Sorted labels : StronglySorted Z.le (np.sort (np.unique labels)).
Proof. apply StronglySorted_merge_sort; apply _. Qed.

(** X14.  The enumeration of the subject labels keeps their order: of
    two positions, the one with the smaller label gets the smaller
    index. *)
Theorem enum_labels_keeps_order (labels idx : list Z) p q lp lq ip iq :
  enum_labels labels = Ok idx ->
  labels !! p = Some lp -> labels !! q = Some lq ->
  idx !! p = Some ip -> idx !! q = Some iq ->
  (lp < lq <-> ip < iq)%Z.
Proof.
  rewrite enum_labels_Ok. intros [= <-] Hp Hq.
  rewrite !list_lookup_fmap, Hp, Hq. intros [= <-] [= <-].
  destruct (enum_map_is_Some labels lp (list_elem_of_lookup_2 _ _ _ Hp))
    as [ip Hip].
  destruct (enum_map_is_Some labels lq (list_elem_of_lookup_2 _ _ _ Hq))
    as [iq Hiq].
  rewrite Hip, Hiq. simpl.
  apply enum_map_lookup in Hip as (n & -> & Hn).
  apply enum_map_lookup in Hiq as (n' & -> & Hn').
  pose proof (sort_unique_Sorted labels) as Hsorted.
  pose proof (sort_unique_NoDup labels) as Hnodup.
  assert (n = n' -> lp = lq) as Heq by (intros ->; congruence).
  assert (lp = lq -> n = n') as Heq'.
  { intros ->. by eapply NoDup_lookup. }
  assert ((n < n')%nat -> (lp <= lq)%Z) as Hlt.
  { intros ?. eapply (StronglySorted_lookup_le _ n n'); [done|lia|done..]. }
  assert ((n' < n)%nat -> (lq <= lp)%Z) as Hgt.
  { intros ?. eapply (StronglySorted_lookup_le _ n' n); [done|lia|done..]. }
  lia.
Qed.

Lemma enum_labels_keeps_order_witness : (3 < 9 <-> 0 < 2)%Z.
Proof.
  apply (enum_labels_keeps_order [5; 3; 5; 9; 3]%Z [1; 0; 1; 2; 0]%Z 1 3);
    [vm_compute; reflexivity|reflexivity..].
Defined.

Lemma custom_subject_cmap_result `{External} labels cmap s :
  (custom_subject_cmap labels cmap s).2
  = cm ← get_cmap cmap;
    Ok ((fun i => take 3 (cm (inject_Z i
                              / inject_Z (Z.of_nat (length (np.unique labels))))%Q))
        <$> ((fun l => default 0%Z (enum_map labels !! l)) <$> labels)).
Proof.
  unfold custom_subject_cmap. rewrite enum_labels_Ok.
  erewrite M_bind_step by reflexivity.
  destruct (cmap_limits !! cmap) as [limit|]; [case_decide|];
    (erewrite M_bind_step by reflexivity); unfold lift, mbind, M_bind;
    by destruct (get_cmap cmap).
Qed.

(** X15.  When the colour map exists, [custom_subject_cmap] returns one
    colour per label, the first three components of the map's value at
    index / distinct-count, a point of [0, 1); when it does not exist
    the call raises what the colour-map lookup raises. *)
Theorem custom_subject_cmap_samples_the_unit_interval `{External}
    (labels : list Z) (cmap : string) (s : state) :
  let k := Z.of_nat (length (np.unique labels)) in
  (forall cm, get_cmap cmap = Ok cm ->
     exists idx,
       enum_labels labels = Ok idx
       /\ (custom_subject_cmap labels cmap s).2
          = Ok ((fun i => take 3 (cm (inject_Z i / inject_Z k)%Q)) <$> idx)
       /\ Forall (fun i => 0 <= inject_Z i / inject_Z k
                           /\ inject_Z i / inject_Z k < 1)%Q idx)
  /\ (forall e, get_cmap cmap = Raise e ->
        (custom_subject_cmap labels cmap s).2 = Raise e).
Proof.
  intros k. split.
  - intros cm Hcm. eexists. split; [apply enum_labels_Ok|].
    split; [by rewrite custom_subject_cmap_result, Hcm|].
    apply Forall_fmap, Forall_forall. intros l Hl. simpl.
    destruct (enum_map_is_Some labels l Hl) as [i Hi]. rewrite Hi. simpl.
    apply enum_map_lookup in Hi as (n & -> & Hn%lookup_lt_Some).
    rewrite sort_unique_length in Hn. fold k in Hn.
    assert (0 < inject_Z k)%Q as Hk.
    { change 0%Q with (inject_Z 0). rewrite <- Zlt_Qlt. lia. }
    split.
    + apply Qle_shift_div_l; [done|]. rewrite Qmult_0_l.
      change 0%Q with (inject_Z 0). rewrite <- Zle_Qle. lia.
    + apply Qlt_shift_div_r; [done|]. rewrite Qmult_1_l.
      rewrite <- Zlt_Qlt. lia.
  - intros e He. by rewrite custom_subject_cmap_result, He.
Qed.

Lemma custom_subject_cmap_samples_witness :
  exists idx,
    enum_labels [5; 3; 5]%Z = Ok idx
    /\ (custom_subject_cmap [5; 3; 5]%Z "viridis" sample_state).2
       = Ok ((fun i => take 3 ((fun x => [x; x; x; 1%Q])
                                 (inject_Z i / inject_Z 2)%Q)) <$> idx)
    /\ Forall (fun i => 0 <= inject_Z i / inject_Z 2
                        /\ inject_Z i / inject_Z 2 < 1)%Q idx.
Proof.
  apply (proj1 (custom_subject_cmap_samples_the_unit_interval
                  [5; 3; 5]%Z "viridis" sample_state)).
  reflexivity.
Defined.
(** ** The main loop *)

(** X16.  When no group is selected by [--group_index] (a label that no
    group carries, or text that is no label at all), the loop analyses
    nothing and does not fail: it prints one skipping line per group. *)
Theorem unselected_groups_are_skipped `{External}
    (a : ARGS.t) (groups : list EvaluationGroup) (s : state) :
  Forall (fun e => ~ selected a e) groups ->
  process_groups a groups s
  = (State (fs s)
       (log s ++ ((fun e => Print ("    skipping group/class " ++ str_int (cls e)
                                   ++ " analysis as per --group_index specification"))
                  <$> groups)),
     Ok tt).
Proof.
  intros Hgroups. revert s.
  induction Hgroups as [|e groups He _ IH]; intros s; simpl.
  - rewrite app_nil_r. by destruct s.
  - unfold process_group at 1. fold (selected a e).
    rewrite bool_decide_eq_false_2 by done.
    erewrite M_bind_step by reflexivity. rewrite IH. simpl.
    by rewrite <- app_assoc.
Qed.

Lemma unselected_groups_are_skipped_witness :
  process_groups (with_group_index "01" sample_args)
    [sample_group0; sample_group1] sample_state
  = (State (fs sample_state)
       (log sample_state
        ++ ((fun e => Print ("    skipping group/class " ++ str_int (cls e)
                             ++ " analysis as per --group_index specification"))
            <$> [sample_group0; sample_group1])),
     Ok tt).
Proof.
  apply unselected_groups_are_skipped. repeat constructor; by_decision.
Defined.

(** X17.  With a group index other than "all" at most one of the groups
    the loader returns is analysed. *)
Theorem group_index_selects_at_most_one_group
    (a : ARGS.t) root model fold ad att ag s s' groups i j g g' :
  load_analysis_data root model fold ad att ag s = (s', Ok groups) ->
  ARGS.group_index a ≠ "all" ->
  groups !! i = Some g -> groups !! j = Some g' ->
  selected a g -> selected a g' ->
  i = j.
Proof.
  intros Hload Hall Hi Hj Hg Hg'.
  destruct (load_analysis_data_Ok_inv _ _ _ _ _ _ _ _ _ Hload) as (d & Hd & _).
  destruct (loaded_groups _ _ _ _ _ _ _ _ _ _ _ Hd Hload) as (y & _ & Hgroups).
  apply Forall2_group_of in Hgroups as ->.
  assert (forall e, selected a e -> ARGS.group_index a = str_int (cls e)) as Hsel.
  { intros e. unfold selected. rewrite !elem_of_cons, elem_of_nil.
    by intros [?|[?|[]]]. }
  apply Hsel in Hg, Hg'. rewrite Hg in Hg'. apply (inj pretty) in Hg'.
  rewrite list_lookup_fmap in Hi, Hj.
  destruct (np.unique y !! i) as [c|] eqn:Hc; [|done].
  destruct (np.unique y !! j) as [c'|] eqn:Hc'; [|done].
  injection Hi as <-. injection Hj as <-. simpl in Hg'. subst c'.
  by eapply NoDup_lookup; [apply unique_NoDup|..].
Qed.

Lemma group_index_selects_at_most_one_group_witness : 1%nat = 1%nat.
Proof.
  apply (group_index_selects_at_most_one_group
           (with_group_index "1" sample_args) "proj" "Cnn1DC8" "0" "relevance"
           "act" "ground_truth" sample_state sample_loaded
           [sample_group0; sample_group1] 1 1 sample_group1 sample_group1).
  - vm_compute. reflexivity.
  - discriminate.
  - reflexivity.
  - reflexivity.
  - by_decision.
  - by_decision.
Defined.

(** X18.  The loop has no error handling: when the pipeline raises on a
    selected group, the run ends with that error right after the
    progress line of the group; nothing is drawn or saved for it and
    the remaining groups are not processed. *)
Theorem pipeline_error_ends_the_run `{External}
    (a : ARGS.t) (e : EvaluationGroup) (rest : list EvaluationGroup)
    (s : state) (err : exn) :
  selected a e ->
  pipeline a (grp_R e) = Raise err ->
  process_groups a (e :: rest) s
  = (State (fs s)
       (log s ++ [Print ("    process " ++ dquote ++ ARGS.attribution_type a
                         ++ dquote ++ " relevance for class " ++ str_int (cls e)
                         ++ " (" ++ ARGS.analysis_groups a ++ ") as per "
                         ++ ARGS.model a)]),
     Raise err).
Proof.
  intros Hsel Herr. simpl. apply M_bind_raise.
  unfold process_group. fold (selected a e).
  rewrite bool_decide_eq_true_2 by done.
  apply M_bind_raise. unfold analyse.
  erewrite M_bind_step by reflexivity.
  apply M_bind_raise. by rewrite Herr.
Qed.

Lemma pipeline_error_ends_the_run_witness :
  process_groups sample_args [rank_one_group; sample_group1] sample_state
  = (State (fs sample_state)
       (log sample_state
        ++ [Print ("    process " ++ dquote ++ "act" ++ dquote
                   ++ " relevance for class " ++ str_int 0 ++ " ("
                   ++ "ground_truth" ++ ") as per " ++ "Cnn1DC8")]),
     Raise TypeError).
Proof.
  apply (pipeline_error_ends_the_run sample_args rank_one_group
           [sample_group1] sample_state TypeError).
  - by_decision.
  - reflexivity.
Defined.

(** X19.  A group whose analysis succeeds gets a figure with the panels
    1, 2, ..., 2 + k, drawn in this order, where k is the number of
    clusterings the pipeline returned: the injury panel, the subject
    panel and one panel per clustering.  The embedding handed on is the
    centred one. *)
Theorem analysis_draws_one_panel_per_clustering `{External}
    (a : ARGS.t) (e : EvaluationGroup) (s s' : state)
    (clusterings : list (list Z)) (tsne_embedding : matrix) :
  analyse a e s = (s', Ok (clusterings, tsne_embedding)) ->
  exists raw evs,
    pipeline a (grp_R e) = Ok (clusterings, raw)
    /\ tsne_embedding = center raw
    /\ log s' = (log s ++ evs)%list
    /\ omap panel_of evs = seq 1 (2 + length clusterings).
Proof.
  unfold analyse. intros Hrun.
  apply M_bind_Ok in Hrun as ([] & s1 & [= <-] & Hrun).
  apply M_bind_Ok in Hrun as ([cs raw] & s2 & Hpipe & Hrun).
  apply lift_Ok in Hpipe as [-> Hpipe]. simpl in Hrun.
  apply M_bind_Ok in Hrun as ([] & s3 & [= <-] & Hrun).
  apply M_bind_Ok in Hrun as ([] & s4 & Hdraw & [= <- <- <-]).
  apply draws_draw_figure in Hdraw as (evs & Hlog & Hps). simpl in Hlog.
  exists raw. eexists. split; [done|]. split; [done|]. split.
  - rewrite Hlog, <- !app_assoc. reflexivity.
  - done.
Qed.

Lemma analysis_draws_one_panel_per_clustering_witness :
  exists raw evs,
    pipeline sample_args (grp_R sample_group1)
    = Ok ((sample_analysis sample_group1).1, raw)
    /\ (sample_analysis sample_group1).2 = center raw
    /\ log (analyse sample_args sample_group1 sample_state).1
       = (log sample_state ++ evs)%list
    /\ omap panel_of evs
       = seq 1 (2 + length (sample_analysis sample_group1).1).
Proof.
  apply (analysis_draws_one_panel_per_clustering sample_args sample_group1
           sample_state).
  vm_compute. reflexivity.
Defined.

Lemma emits_persist_off `{External} a e clusterings tsne_embedding :
  ARGS.save_results a = false ->
  emits (fun ev => is_write ev = false) (persist a e clusterings tsne_embedding).
Proof. intros Hsave. unfold persist. rewrite Hsave. apply emits_ret. Qed.

Lemma emits_process_groups_off `{External} a groups :
  ARGS.save_results a = false ->
  emits (fun ev => is_write ev = false) (process_groups a groups).
Proof.
  intros Hsave. induction groups as [|e groups IH]; simpl.
  - apply emits_ret.
  - apply emits_bind; [|by intros _].
    unfold process_group. case_bool_decide.
    + apply emits_bind.
      * eapply emits_impl; [|apply emits_analyse].
        apply progress_event_not_write.
      * intros r. by apply emits_persist_off.
    + by apply emits_emit.
Qed.

(** X20.  Without [--save_results] a run writes nothing: whatever the
    project holds and however the run ends, the file system is left as
    it was and no folder, figure, text file or array is written. *)
Theorem without_save_results_nothing_is_written `{External}
    (a : ARGS.t) (s : state) :
  ARGS.save_results a = false ->
  fs (main a s).1 = fs s
  /\ exists evs, log (main a s).1 = (log s ++ evs)%list
                 /\ Forall (fun ev => is_write ev = false) evs.
Proof.
  intros Hsave.
  assert (emits (fun ev => is_write ev = false) (main a)) as Hmain.
  { unfold main. apply emits_bind; [by apply emits_emit|]. intros _.
    apply emits_bind.
    { eapply emits_impl; [|apply emits_load_analysis_data]. by intros []. }
    intros groups. apply emits_bind; [by apply emits_emit|]. intros _.
    apply emits_bind; [by apply emits_process_groups_off|]. intros _.
    destruct (ARGS.show a); [by apply emits_emit|apply emits_ret]. }
  destruct (Hmain s) as (evs & Hfs & Hlog & Hevs). eauto.
Qed.

Lemma without_save_results_nothing_is_written_witness :
  fs (main (without_saving sample_args) sample_state).1 = fs sample_state
  /\ exists evs,
       log (main (without_saving sample_args) sample_state).1
       = (log sample_state ++ evs)%list
       /\ Forall (fun ev => is_write ev = false) evs.
Proof.
  apply (without_save_results_nothing_is_written
           (without_saving sample_args) sample_state).
  reflexivity.
Defined.
(** ** The persister *)

Lemma prefix_dir (dir rest : string) :
  String.prefix (dir ++ "/") (dir ++ String "/" rest) = true.
Proof.
  change (String "/" rest) with ("/" ++ rest).
  rewrite <- append_assoc. apply prefix_app.
Qed.

Lemma persisted_paths_inside dir c :
  Forall (fun p => String.prefix (dir ++ "/") p = true) (persisted_paths dir c).
Proof. unfold persisted_paths. repeat constructor; apply prefix_dir. Qed.

Lemma length_append (s t : string) :
  String.length (s ++ t) = (String.length s + String.length t)%nat.
Proof.
  induction s as [|c s IH]; [done|].
  change (String c s ++ t) with (String c (s ++ t)). simpl. by rewrite IH.
Qed.

Lemma append_inj_length (s s' t t' : string) :
  s ++ t = s' ++ t' -> String.length t = String.length t' -> s = s'.
Proof.
  intros Heq Hlen.
  assert (String.length s = String.length s') as Hs.
  { apply (f_equal String.length) in Heq. rewrite !length_append in Heq. lia. }
  revert s' Heq Hs. induction s as [|c s IH]; intros [|c' s'] Heq Hs;
    try done.
  change (String c (s ++ t) = String c' (s' ++ t')) in Heq.
  injection Heq as -> Heq. injection Hs as Hs. f_equal. by apply IH.
Qed.

Lemma same_label (c c' : Z) (t t' : string) :
  str_int c ++ t = str_int c' ++ t' -> String.length t = String.length t' ->
  c = c'.
Proof.
  intros Heq Hlen. apply (inj pretty). by eapply append_inj_length.
Qed.

Lemma append_nil_r (a : string) : a ++ "" = a.
Proof. induction a as [|c a IH]; [done|]. exact (f_equal (String c) IH). Qed.

Lemma append_cons_ne (a : string) (c : ascii) (b : string) :
  a ++ String c b ≠ "".
Proof. by destruct a. Qed.

Lemma slashless_app (a b : string) :
  slashless (a ++ b) = slashless a && slashless b.
Proof.
  induction a as [|c a IH]; [done|].
  change (String c a ++ b) with (String c (a ++ b)).
  cbn [slashless]. by rewrite IH, andb_assoc.
Qed.

Lemma slashless_pretty_N_go (x : N) (s : string) :
  slashless s = true -> slashless (pretty_N_go x s) = true.
Proof.
  revert s. induction (N.lt_wf_0 x) as [x _ IH]; intros s Hs.
  assert (x = 0 \/ 0 < x)%N as [->|Hx] by lia.
  - by rewrite pretty_N_go_0.
  - rewrite pretty_N_go_step by done. apply IH; [by apply N.div_lt|].
    cbn [slashless]. rewrite Hs. unfold pretty_N_char. by repeat case_match.
Qed.

(** The text of an integer has no "/". *)
Lemma slashless_str_int (c : Z) : slashless (str_int c) = true.
Proof.
  assert (forall x : N, slashless (pretty x) = true) as HN.
  { intros x. unfold pretty, pretty_N. case_decide; [done|].
    by apply slashless_pretty_N_go. }
  unfold str_int, pretty, pretty_Z. destruct c as [|x|x]; [done|apply HN|].
  change ("-" ++ pretty x) with (String "-" (pretty x)).
  cbn [slashless]. exact (HN (Npos x)).
Qed.

Lemma ancestors_go_app (pre a b : string) :
  ancestors_go pre (a ++ b)
  = (ancestors_go pre a ++ ancestors_go (pre ++ a) b)%list.
Proof.
  revert pre. induction a as [|c a IH]; intros pre.
  - by rewrite append_nil_r.
  - change (String c a ++ b) with (String c (a ++ b)).
    cbn [ancestors_go]. rewrite IH, append_assoc, <- app_assoc. done.
Qed.

Lemma ancestors_go_slashless (pre leaf : string) :
  slashless leaf = true -> ancestors_go pre leaf = [].
Proof.
  revert pre. induction leaf as [|c leaf IH]; intros pre Hleaf; [done|].
  cbn [slashless ancestors_go] in *.
  apply andb_true_iff in Hleaf as [Hc Hleaf].
  rewrite decide_False, IH; [done..|].
  intros [-> _]. discriminate Hc.
Qed.

(** An entry of a directory lies right below it. *)
Lemma ancestors_entry (dir leaf : string) :
  dir ≠ "" -> slashless leaf = true ->
  ancestors (dir ++ String "/" leaf) = (ancestors dir ++ [dir])%list.
Proof.
  intros Hdir Hleaf. unfold ancestors. rewrite ancestors_go_app.
  f_equal. change ("" ++ dir) with dir. cbn [ancestors_go].
  rewrite decide_True by done. by rewrite ancestors_go_slashless.
Qed.

Lemma ancestors_go_shorter (pre p q : string) :
  q ∈ ancestors_go pre p ->
  (String.length q < String.length pre + String.length p)%nat.
Proof.
  revert pre. induction p as [|c p IH]; intros pre Hq.
  - by apply elem_of_nil in Hq.
  - cbn [ancestors_go] in Hq. apply elem_of_app in Hq as [Hq|Hq].
    + case_decide; [|by apply elem_of_nil in Hq].
      apply list_elem_of_singleton in Hq as ->. simpl. lia.
    + apply IH in Hq. rewrite length_append in Hq. simpl in *. lia.
Qed.

Ltac entry leaf :=
  exists leaf; split;
  [reflexivity | rewrite ?slashless_app, ?slashless_str_int; reflexivity].

(** The nine files are entries of the folder. *)
Lemma persisted_paths_entries dir c :
  Forall (fun p => exists leaf, p = dir ++ String "/" leaf /\ slashless leaf = true)
         (persisted_paths dir c).
Proof.
  unfold persisted_paths.
  repeat first
    [ apply Forall_nil_2
    | apply Forall_cons; split;
      [ first
          [ entry ("cls-" ++ str_int c ++ ".svg")
          | entry ("cls-" ++ str_int c ++ ".pdf")
          | entry "callparams.args"
          | entry ("emb" ++ "-" ++ str_int c ++ ".npy")
          | entry ("clust" ++ "-" ++ str_int c ++ ".npy")
          | entry ("idx" ++ "-" ++ str_int c ++ ".npy")
          | entry ("adata" ++ "-" ++ str_int c ++ ".npy")
          | entry ("inputs" ++ "-" ++ str_int c ++ ".npy")
          | entry ("relevances" ++ "-" ++ str_int c ++ ".npy") ]
      | ] ].
Qed.

Lemma persisted_paths_below dir c p :
  dir ≠ "" -> p ∈ persisted_paths dir c ->
  p ≠ "" /\ last (ancestors p) = Some dir
  /\ (String.length dir < String.length p)%nat.
Proof.
  intros Hdir Hp.
  destruct (proj1 (Forall_forall _ _) (persisted_paths_entries dir c) p Hp)
    as (leaf & -> & Hleaf).
  split; [apply append_cons_ne|]. split.
  - rewrite ancestors_entry by done. apply last_snoc.
  - rewrite length_append. simpl. lia.
Qed.

Lemma write_file_ok p ev d m f l parent :
  p ≠ "" -> p ∉ d -> last (ancestors p) = Some parent -> parent ∈ d ->
  write_file p ev (State (World d m f) l)
  = (State (World d (delete p m) ({[p]} ∪ f)) (l ++ [ev]), Ok tt).
Proof.
  intros Hp Hd Hparent Hin. unfold write_file. cbn [fs log dirs files mats].
  rewrite !decide_False by done. rewrite Hparent.
  by rewrite decide_True by done.
Qed.

Lemma write_file_step {B} parent p ev (k : unit -> M B) d m f l :
  (p ≠ "" /\ p ∉ d /\ last (ancestors p) = Some parent /\ parent ∈ d) ->
  (write_file p ev ≫= k) (State (World d m f) l)
  = k tt (State (World d (delete p m) ({[p]} ∪ f)) (l ++ [ev])).
Proof.
  intros (Hp & Hd & Hparent & Hin). apply M_bind_step.
  by eapply write_file_ok.
Qed.

Lemma print_step {B} msg (k : unit -> M B) w l :
  (print msg ≫= k) (State w l) = k tt (State w (l ++ [Print msg])).
Proof. done. Qed.

Ltac nth_path :=
  unfold persisted_paths;
  repeat first [apply list_elem_of_here | apply list_elem_of_further].

(** The nine writes, once the folder is a directory and none of the
    nine paths is one. *)
Lemma persist_writes `{External} (e : EvaluationGroup) clusterings
    tsne_embedding args_string dir d m f l :
  dir ≠ "" -> dir ∈ d ->
  Forall (fun p => p ∉ d) (persisted_paths dir (cls e)) ->
  let c := str_int (cls e) in
  let svg := dir ++ "/cls-" ++ c ++ ".svg" in
  let pdf := dir ++ "/cls-" ++ c ++ ".pdf" in
  let callparams := dir ++ "/callparams.args" in
  let npy name := dir ++ "/" ++ name ++ "-" ++ c ++ ".npy" in
  exists m' evs,
    (write_file svg (Savefig svg);;
     write_file pdf (Savefig pdf);;
     write_file callparams (WriteText callparams args_string);;
     write_file (npy "emb") (NpSave (npy "emb") (PMatrix tsne_embedding));;
     write_file (npy "clust") (NpSave (npy "clust") (PInts clusterings));;
     write_file (npy "idx") (NpSave (npy "idx") (PInt (grp_split_indices e)));;
     write_file (npy "adata") (NpSave (npy "adata") (PReal (grp_R e)));;
     write_file (npy "inputs") (NpSave (npy "inputs") (PReal (grp_inputs e)));;
     write_file (npy "relevances")
       (NpSave (npy "relevances") (PReal (grp_relevances e))))
      (State (World d m f) l)
    = (State (World d m' (list_to_set (persisted_paths dir (cls e)) ∪ f))
         (l ++ evs), Ok tt)
    /\ omap written_path evs = persisted_paths dir (cls e)
    /\ Forall (fun ev => ev ≠ Makedirs dir) evs
    /\ (forall q, q ∉ persisted_paths dir (cls e) -> m' !! q = m !! q).
Proof.
  intros Hdir Hin Hnd c svg pdf callparams npy.
  assert (forall p, p ∈ persisted_paths dir (cls e) ->
            p ≠ "" /\ p ∉ d /\ last (ancestors p) = Some dir /\ dir ∈ d) as Hw.
  { intros p Hp.
    destruct (persisted_paths_below dir (cls e) p Hdir Hp) as (? & ? & _).
    repeat split; try done. by apply (proj1 (Forall_forall _ _) Hnd). }
  subst c svg pdf callparams npy. cbv beta.
  do 8 (rewrite (write_file_step dir) by (apply Hw; nth_path); cbv beta).
  rewrite (write_file_ok _ _ _ _ _ _ dir)
    by (apply Hw || apply Hin; nth_path).
  eexists _, [_; _; _; _; _; _; _; _; _]. split; [|split; [|split]].
  - f_equal. f_equal; [|by rewrite <- !app_assoc].
    f_equal. unfold persisted_paths. set_solver.
  - reflexivity.
  - repeat constructor; discriminate.
  - intros q Hq. rewrite !lookup_delete_ne; [done|..];
      intros <-; apply Hq; nth_path.
Qed.

(** What the persister does once the output root is free, no part of
    the path to the folder is a plain file, and none of the nine paths
    is a directory. *)
Lemma persist_saves `{External} a e clusterings tsne_embedding s stuff :
  ARGS.save_results a = true ->
  ~ plain_file (fs s) (ARGS.output a) ->
  args_to_stuff a = Ok stuff ->
  let dir := ARGS.output a ++ "/" ++ stuff.1 in
  ~ plain_file (fs s) dir ->
  Forall (fun q => ~ plain_file (fs s) q) (ancestors dir) ->
  Forall (fun p => p ∉ dirs (fs s)) (persisted_paths dir (cls e)) ->
  exists s' evs,
    persist a e clusterings tsne_embedding s = (s', Ok tt)
    /\ log s' = (log s ++ evs)%list
    /\ (Makedirs dir ∈ evs <-> dir ∉ dirs (fs s))
    /\ omap written_path evs = persisted_paths dir (cls e)
    /\ dir ∈ dirs (fs s')
    /\ dirs (fs s) ⊆ dirs (fs s')
    /\ files (fs s') = list_to_set (persisted_paths dir (cls e)) ∪ files (fs s)
    /\ (forall q, q ∉ persisted_paths dir (cls e) ->
          mats (fs s') !! q = mats (fs s) !! q).
Proof.
  intros Hsave Hroot Hstuff dir Hfile Habove Hnd.
  destruct s as [[d m f] l]. unfold plain_file in *.
  cbn [fs log dirs files mats] in *.
  assert (dir ≠ "") as Hdir by apply append_cons_ne.
  unfold persist. rewrite Hsave.
  rewrite (M_bind_step _ _ _ (State (World d m f) l) false).
  2:{ unfold os_path.isfile, gets. cbn [fs log dirs files mats].
      rewrite !bool_decide_eq_false_2 by tauto. done. }
  rewrite (M_bind_step _ _ _ (State (World d m f) l) stuff)
    by (by rewrite Hstuff).
  cbv zeta. fold dir.
  destruct (decide (dir ∈ d)) as [Hin|Hout].
  - rewrite (M_bind_step _ _ _ (State (World d m f) l) true).
    2:{ unfold os_path.isdir, gets. cbn [fs log dirs files mats].
        by rewrite bool_decide_eq_true_2. }
    rewrite (M_bind_step _ _ _ (State (World d m f) l) tt) by done.
    rewrite print_step. cbv beta.
    destruct (persist_writes e clusterings tsne_embedding stuff.2 dir d m f
                (l ++ [Print ("    saving figure, args and clusterings/embedding in "
                              ++ dir)]) Hdir Hin Hnd)
      as (m' & evs & Hrun & Hpaths & Hmk & Hmats).
    cbv zeta in Hrun. rewrite Hrun.
    eexists _, (_ :: evs). split; [reflexivity|]. cbn [fs log dirs files mats].
    split; [by rewrite <- app_assoc|]. split.
    { split; [|done]. intros Hmk'. exfalso.
      apply elem_of_cons in Hmk' as [Hmk'|Hmk']; [discriminate|].
      by apply (proj1 (Forall_forall _ _) Hmk) in Hmk'. }
    done.
  - rewrite (M_bind_step _ _ _ (State (World d m f) l) false).
    2:{ unfold os_path.isdir, gets. cbn [fs log dirs files mats].
        by rewrite bool_decide_eq_false_2. }
    assert (Forall (fun p => p ∉ {[dir]} ∪ list_to_set (ancestors dir) ∪ d)
              (persisted_paths dir (cls e))) as Hnd'.
    { apply Forall_forall. intros p Hp.
      destruct (persisted_paths_below dir (cls e) p Hdir Hp) as (_ & _ & Hlen).
      rewrite !elem_of_union, elem_of_singleton, elem_of_list_to_set.
      intros [[->|Hq]|Hq].
      - lia.
      - apply ancestors_go_shorter in Hq. simpl in Hq. lia.
      - by apply (proj1 (Forall_forall _ _) Hnd p Hp). }
    rewrite (M_bind_step _ _ _
               (State (World ({[dir]} ∪ list_to_set (ancestors dir) ∪ d) m f)
                  (l ++ [Makedirs dir])) tt).
    2:{ unfold os_makedirs. cbn [fs log dirs files mats].
        rewrite decide_False by done.
        rewrite decide_False by (unfold plain_file in *; tauto).
        rewrite decide_False; [done|].
        intros Hex. apply Exists_exists in Hex as (q & Hq & Hq').
        by apply (proj1 (Forall_forall _ _) Habove q Hq). }
    rewrite print_step. cbv beta.
    destruct (persist_writes e clusterings tsne_embedding stuff.2 dir
                ({[dir]} ∪ list_to_set (ancestors dir) ∪ d) m f
                ((l ++ [Makedirs dir])
                 ++ [Print ("    saving figure, args and clusterings/embedding in "
                            ++ dir)]) Hdir)
      as (m' & evs & Hrun & Hpaths & Hmk & Hmats); [set_solver|done|].
    cbv zeta in Hrun. rewrite Hrun.
    eexists _, (_ :: _ :: evs). split; [reflexivity|].
    cbn [fs log dirs files mats].
    split; [by rewrite <- !app_assoc|]. split.
    { split; [done|]. intros _. apply list_elem_of_here. }
    split; [done|]. split; [set_solver|]. split; [set_solver|]. done.
Qed.

(** X21.  With [--save_results], an output root that is no plain file,
    a folder [output/foldername] such that neither it nor a directory
    above it is a plain file, and none of the nine paths being a
    directory, the persister succeeds: it creates the folder exactly
    when it is not there yet, and writes the nine files of the group
    (two figures, the call parameters and six arrays), in the order of
    the code, all of them inside that folder.  No directory is removed,
    the plain files are the former ones and the nine, and every [.mat]
    file that is not overwritten by one of the nine is left as it is. *)
Theorem persister_writes_nine_files_into_the_folder `{External}
    (a : ARGS.t) (e : EvaluationGroup) (clusterings : list (list Z))
    (tsne_embedding : matrix) (s : state) (stuff : string * string) :
  ARGS.save_results a = true ->
  ~ plain_file (fs s) (ARGS.output a) ->
  args_to_stuff a = Ok stuff ->
  let dir := ARGS.output a ++ "/" ++ stuff.1 in
  ~ plain_file (fs s) dir ->
  Forall (fun q => ~ plain_file (fs s) q) (ancestors dir) ->
  Forall (fun p => p ∉ dirs (fs s)) (persisted_paths dir (cls e)) ->
  exists s' evs,
    persist a e clusterings tsne_embedding s = (s', Ok tt)
    /\ log s' = (log s ++ evs)%list
    /\ (Makedirs dir ∈ evs <-> dir ∉ dirs (fs s))
    /\ omap written_path evs = persisted_paths dir (cls e)
    /\ length (omap written_path evs) = 9%nat
    /\ Forall (fun p => String.prefix (dir ++ "/") p = true)
         (omap written_path evs)
    /\ dir ∈ dirs (fs s')
    /\ dirs (fs s) ⊆ dirs (fs s')
    /\ files (fs s') = list_to_set (persisted_paths dir (cls e)) ∪ files (fs s)
    /\ (forall q, q ∉ persisted_paths dir (cls e) ->
          mats (fs s') !! q = mats (fs s) !! q).
Proof.
  intros Hsave Hroot Hstuff dir Hfile Habove Hnd.
  destruct (persist_saves a e clusterings tsne_embedding s stuff)
    as (s' & evs & Hrun & Hlog & Hmk & Hpaths & Hdir & Hdirs & Hfiles & Hmats);
    [done..|].
  exists s', evs. rewrite Hpaths.
  split; [exact Hrun|]. split; [exact Hlog|]. split; [exact Hmk|].
  split; [reflexivity|]. split; [reflexivity|].
  split; [apply persisted_paths_inside|].
  split; [exact Hdir|]. split; [exact Hdirs|].
  split; [exact Hfiles|exact Hmats].
Qed.

Lemma persister_writes_nine_files_witness :
  exists s' evs,
    persist sample_args sample_group0 (sample_analysis sample_group0).1
      (sample_analysis sample_group0).2
      (analyse sample_args sample_group0 sample_state).1 = (s', Ok tt)
    /\ log s' = (log (analyse sample_args sample_group0 sample_state).1 ++ evs)%list
    /\ (Makedirs "out/relevance-ground_truth-act-Set2-custom-viridis-0-all-4-3-Cnn1DC8-3-0xDEADBEEF-30.0" ∈ evs
        <-> "out/relevance-ground_truth-act-Set2-custom-viridis-0-all-4-3-Cnn1DC8-3-0xDEADBEEF-30.0" ∉ dirs (fs (analyse sample_args sample_group0 sample_state).1))
    /\ omap written_path evs = persisted_paths "out/relevance-ground_truth-act-Set2-custom-viridis-0-all-4-3-Cnn1DC8-3-0xDEADBEEF-30.0" 0
    /\ length (omap written_path evs) = 9%nat
    /\ Forall (fun p => String.prefix ("out/relevance-ground_truth-act-Set2-custom-viridis-0-all-4-3-Cnn1DC8-3-0xDEADBEEF-30.0" ++ "/") p = true)
         (omap written_path evs)
    /\ "out/relevance-ground_truth-act-Set2-custom-viridis-0-all-4-3-Cnn1DC8-3-0xDEADBEEF-30.0" ∈ dirs (fs s')
    /\ dirs (fs (analyse sample_args sample_group0 sample_state).1) ⊆ dirs (fs s')
    /\ files (fs s')
       = list_to_set (persisted_paths "out/relevance-ground_truth-act-Set2-custom-viridis-0-all-4-3-Cnn1DC8-3-0xDEADBEEF-30.0" 0)
         ∪ files (fs (analyse sample_args sample_group0 sample_state).1)
    /\ (forall q, q ∉ persisted_paths "out/relevance-ground_truth-act-Set2-custom-viridis-0-all-4-3-Cnn1DC8-3-0xDEADBEEF-30.0" 0 ->
          mats (fs s') !! q
          = mats (fs (analyse sample_args sample_group0 sample_state).1) !! q).
Proof.
  apply (persister_writes_nine_files_into_the_folder sample_args sample_group0
           (sample_analysis sample_group0).1 (sample_analysis sample_group0).2
           (analyse sample_args sample_group0 sample_state).1
           ("relevance-ground_truth-act-Set2-custom-viridis-0-all-4-3-Cnn1DC8-3-0xDEADBEEF-30.0",
            "--analysis_data relevance  --analysis_groups ground_truth  --attribution_type act  --cmap_clustering Set2  --cmap_injury custom  --cmap_subject viridis  --fold 0  --group_index all  --max_clusters 4  --min_clusters 3  --model Cnn1DC8  --neighbors_affinity 3  --random_seed 0xDEADBEEF  --tsne_perplexity 30.0")).
  - reflexivity.
  - by_decision.
  - vm_compute. reflexivity.
  - by_decision.
  - by_decision.
  - by_decision.
Defined.

(** X22.  A plain file in the place of the folder [output/foldername]
    is not handled like a plain file in the place of the output root:
    [os.makedirs] raises [FileExistsError], nobody catches it, and the
    run ends after the analysis of the first selected group, with
    nothing written. *)
Theorem folder_taken_by_a_file_ends_the_run `{External}
    (a : ARGS.t) (e : EvaluationGroup) (rest : list EvaluationGroup)
    (s s1 : state) (r : list (list Z) * matrix) (stuff : string * string) :
  selected a e ->
  ARGS.save_results a = true ->
  ARGS.output a ∉ files (fs s) ->
  ARGS.output a ∉ dom (mats (fs s)) ->
  args_to_stuff a = Ok stuff ->
  let dir := ARGS.output a ++ "/" ++ stuff.1 in
  dir ∉ dirs (fs s) ->
  dir ∈ files (fs s) ->
  analyse a e s = (s1, Ok r) ->
  process_groups a (e :: rest) s = (s1, Raise (FileExistsError dir))
  /\ fs s1 = fs s.
Proof.
  intros Hsel Hsave Hroot Hroot' Hstuff dir Hdir Hfile Hrun.
  assert (fs s1 = fs s) as Hfs.
  { destruct (emits_analyse a e s) as (evs & Hfs & _). by rewrite Hrun in Hfs. }
  split; [|done]. simpl. apply M_bind_raise.
  unfold process_group. fold (selected a e).
  rewrite bool_decide_eq_true_2 by done.
  rewrite (M_bind_step _ _ s s1 r) by done.
  unfold persist. rewrite Hsave.
  rewrite (M_bind_step _ _ s1 s1 false).
  2:{ unfold os_path.isfile, gets. rewrite Hfs.
      by rewrite !bool_decide_eq_false_2. }
  rewrite (M_bind_step _ _ s1 s1 stuff) by (by rewrite Hstuff).
  cbv zeta. fold dir.
  rewrite (M_bind_step _ _ s1 s1 false).
  2:{ unfold os_path.isdir, gets. rewrite Hfs.
      by rewrite bool_decide_eq_false_2. }
  apply M_bind_raise. try apply M_bind_raise. cbv beta iota.
  unfold os_makedirs. rewrite Hfs.
  rewrite decide_False by apply append_cons_ne.
  by rewrite decide_True by tauto.
Qed.

Lemma folder_taken_by_a_file_witness :
  process_groups sample_args [sample_group0; sample_group1] blocked_state
  = ((analyse sample_args sample_group0 blocked_state).1,
     Raise (FileExistsError
       "out/relevance-ground_truth-act-Set2-custom-viridis-0-all-4-3-Cnn1DC8-3-0xDEADBEEF-30.0"))
  /\ fs (analyse sample_args sample_group0 blocked_state).1 = fs blocked_state.
Proof.
  apply (folder_taken_by_a_file_ends_the_run sample_args sample_group0
           [sample_group1] blocked_state
           (analyse sample_args sample_group0 blocked_state).1
           (sample_analysis sample_group0)
           ("relevance-ground_truth-act-Set2-custom-viridis-0-all-4-3-Cnn1DC8-3-0xDEADBEEF-30.0",
            "--analysis_data relevance  --analysis_groups ground_truth  --attribution_type act  --cmap_clustering Set2  --cmap_injury custom  --cmap_subject viridis  --fold 0  --group_index all  --max_clusters 4  --min_clusters 3  --model Cnn1DC8  --neighbors_affinity 3  --random_seed 0xDEADBEEF  --tsne_perplexity 30.0")).
  - by_decision.
  - reflexivity.
  - by_decision.
  - by_decision.
  - vm_compute. reflexivity.
  - by_decision.
  - by_decision.
  - vm_compute. reflexivity.
Defined.

Lemma persisted_paths_share (dir : string) (c c' : Z) (p : string) :
  c ≠ c' ->
  p ∈ persisted_paths dir c -> p ∈ persisted_paths dir c' ->
  p = dir ++ "/callparams.args".
Proof.
  intros Hc Hp Hp'. unfold persisted_paths in *.
  repeat (apply elem_of_cons in Hp as [->|Hp]);
    [..|by apply elem_of_nil in Hp];
    repeat (apply elem_of_cons in Hp' as [Hp'|Hp']);
    try (by apply elem_of_nil in Hp'); try done;
    exfalso; apply (inj (String.append dir)) in Hp';
    cbv [String.append] in Hp'; fold String.append in Hp';
    simplify_eq; try (by eapply Hc, same_label).
Qed.

Lemma os_makedirs_Ok p s s' u :
  os_makedirs p s = (s', Ok u) -> log s' = (log s ++ [Makedirs p])%list.
Proof.
  unfold os_makedirs. repeat case_decide; try discriminate. by intros [= <- _].
Qed.

Lemma write_file_Ok p ev s s' u :
  write_file p ev s = (s', Ok u) -> log s' = (log s ++ [ev])%list.
Proof.
  unfold write_file. cbv zeta.
  repeat first [case_decide | case_match]; try discriminate;
    by intros [= <- _].
Qed.

(** A successful run of the persister, taken apart: either nothing was
    written, or the files written are the nine of the group, in the
    folder of the configuration. *)
Lemma persist_Ok_inv `{External} a e clusterings tsne_embedding s s' :
  persist a e clusterings tsne_embedding s = (s', Ok tt) ->
  exists evs,
    log s' = (log s ++ evs)%list
    /\ (omap written_path evs = []
        \/ exists stuff,
             args_to_stuff a = Ok stuff
             /\ omap written_path evs
                = persisted_paths (ARGS.output a ++ "/" ++ stuff.1) (cls e)).
Proof.
  unfold persist. destruct (ARGS.save_results a).
  2:{ intros [= <-]. exists []. rewrite app_nil_r. by split; [|left]. }
  intros Hrun.
  apply M_bind_Ok in Hrun as (isfile & s0 & [= <- <-] & Hrun).
  destruct (_ || _).
  { injection Hrun as <-. exists [Print (collision_message a)]. by split; [|left]. }
  apply M_bind_Ok in Hrun as (stuff & s0 & Hstuff & Hrun).
  apply lift_Ok in Hstuff as [-> Hstuff]. cbv zeta in Hrun.
  apply M_bind_Ok in Hrun as (isdir & s0 & [= <- <-] & Hrun).
  apply M_bind_Ok in Hrun as ([] & s1 & Hmk & Hrun).
  assert (exists mk, log s1 = (log s ++ mk)%list /\ omap written_path mk = [])
    as (mk & Hlog1 & Hmk').
  { destruct (bool_decide _).
    - injection Hmk as <-. exists []. by rewrite app_nil_r.
    - apply os_makedirs_Ok in Hmk. by eexists [_]. }
  clear Hmk.
  apply M_bind_Ok in Hrun as ([] & s2 & [= <-] & Hrun).
  apply M_bind_Ok in Hrun as ([] & s3 & H3 & Hrun). apply write_file_Ok in H3.
  apply M_bind_Ok in Hrun as ([] & s4 & H4 & Hrun). apply write_file_Ok in H4.
  apply M_bind_Ok in Hrun as ([] & s5 & H5 & Hrun). apply write_file_Ok in H5.
  apply M_bind_Ok in Hrun as ([] & s6 & H6 & Hrun). apply write_file_Ok in H6.
  apply M_bind_Ok in Hrun as ([] & s7 & H7 & Hrun). apply write_file_Ok in H7.
  apply M_bind_Ok in Hrun as ([] & s8 & H8 & Hrun). apply write_file_Ok in H8.
  apply M_bind_Ok in Hrun as ([] & s9 & H9 & Hrun). apply write_file_Ok in H9.
  apply M_bind_Ok in Hrun as ([] & s10 & H10 & Hrun). apply write_file_Ok in H10.
  apply write_file_Ok in Hrun.
  cbn [log] in H3.
  rewrite Hrun, H10, H9, H8, H7, H6, H5, H4, H3, Hlog1, <- !app_assoc.
  eexists. split; [reflexivity|]. right. exists stuff. split; [done|].
  rewrite omap_app, Hmk'. reflexivity.
Qed.

(** X23.  Whenever the persister succeeds for two groups with different
    labels under the same configuration, the only file written in both
    runs is [callparams.args] of the folder of the configuration: the
    figures and the arrays of the two groups go to different files. *)
Theorem groups_share_only_the_call_parameters `{External}
    (a : ARGS.t) (e e' : EvaluationGroup)
    (clusterings clusterings' : list (list Z))
    (tsne_embedding tsne_embedding' : matrix)
    (s1 s1' s2 s2' : state) (evs evs' : list event) (p : string) :
  persist a e clusterings tsne_embedding s1 = (s1', Ok tt) ->
  log s1' = (log s1 ++ evs)%list ->
  persist a e' clusterings' tsne_embedding' s2 = (s2', Ok tt) ->
  log s2' = (log s2 ++ evs')%list ->
  cls e ≠ cls e' ->
  p ∈ omap written_path evs ->
  p ∈ omap written_path evs' ->
  exists stuff,
    args_to_stuff a = Ok stuff
    /\ p = (ARGS.output a ++ "/" ++ stuff.1) ++ "/callparams.args".
Proof.
  intros Hrun Hlog Hrun' Hlog' Hcls Hp Hp'.
  apply persist_Ok_inv in Hrun as (evs0 & Hlog0 & Hw).
  apply persist_Ok_inv in Hrun' as (evs0' & Hlog0' & Hw').
  rewrite Hlog0 in Hlog. apply app_inv_head in Hlog as <-.
  rewrite Hlog0' in Hlog'. apply app_inv_head in Hlog' as <-.
  destruct Hw as [Hw|(stuff & Hstuff & Hw)];
    [rewrite Hw in Hp; by apply elem_of_nil in Hp|].
  destruct Hw' as [Hw'|(stuff' & Hstuff' & Hw')];
    [rewrite Hw' in Hp'; by apply elem_of_nil in Hp'|].
  rewrite Hstuff in Hstuff'. injection Hstuff' as <-.
  rewrite Hw in Hp. rewrite Hw' in Hp'.
  exists stuff. split; [done|]. by eapply persisted_paths_share.
Qed.

Lemma groups_share_only_the_call_parameters_witness :
  exists stuff,
    args_to_stuff sample_args = Ok stuff
    /\ "out/relevance-ground_truth-act-Set2-custom-viridis-0-all-4-3-Cnn1DC8-3-0xDEADBEEF-30.0/callparams.args"
       = (ARGS.output sample_args ++ "/" ++ stuff.1) ++ "/callparams.args".
Proof.
  apply (groups_share_only_the_call_parameters sample_args
           sample_group0 sample_group1
           (sample_analysis sample_group0).1 (sample_analysis sample_group1).1
           (sample_analysis sample_group0).2 (sample_analysis sample_group1).2
           sample_state
           (persist sample_args sample_group0 (sample_analysis sample_group0).1
              (sample_analysis sample_group0).2 sample_state).1
           sample_state
           (persist sample_args sample_group1 (sample_analysis sample_group1).1
              (sample_analysis sample_group1).2 sample_state).1
           (log (persist sample_args sample_group0 (sample_analysis sample_group0).1
                   (sample_analysis sample_group0).2 sample_state).1)
           (log (persist sample_args sample_group1 (sample_analysis sample_group1).1
                   (sample_analysis sample_group1).2 sample_state).1)).
  - vm_compute. reflexivity.
  - vm_compute. reflexivity.
  - vm_compute. reflexivity.
  - vm_compute. reflexivity.
  - discriminate.
  - by_decision.
  - by_decision.
Defined.
